(** * GcsPipelineStorage: key addressing and pattern-based enumeration

    A shallow embedding of [graphrag/index/storage/gcs_pipeline_storage.py].

    Python values are modelled as follows.
    - [str] used for keys, prefixes and blob names: [String.string].
    - [bytes]: [list Byte.byte]; decoded payload text: a list of code points.
    - [pathlib.Path] (POSIX flavour): a root and a list of parts.
    - a compiled [re.Pattern]: a regular-expression syntax tree with a
      backtracking matcher.
    - the GCS client: an interface of fallible, state-passing operations,
      with an in-memory bucket as an instance.
    - exceptions: a [result] type; the generator [find]: the trace of the
      events it produces when it is consumed to the end. *)

From Stdlib Require Import String Ascii List ZArith NArith Lia Bool Arith.
From Stdlib Require Import Strings.Byte.
From Stdlib Require Import DecimalString.
Import ListNotations.

Local Open Scope string_scope.
Local Open Scope list_scope.

(** String concatenation, kept apart from list append. *)
Infix "^^" := String.append (at level 60, right associativity).

(* ================================================================== *)
(** ** Python string methods used by the source *)

Module PyStr.

(** [s.startswith(prefix)] *)
Fixpoint startswith (s prefix : string) {struct prefix} : bool :=
  match prefix with
  | EmptyString => true
  | String a prefix' =>
      match s with
      | EmptyString => false
      | String b s' => Ascii.eqb b a && startswith s' prefix'
      end
  end.

(** [s[n:]] *)
Fixpoint drop (n : nat) (s : string) : string :=
  match n with
  | O => s
  | S n' => match s with
            | EmptyString => EmptyString
            | String _ s' => drop n' s'
            end
  end.

(** [s[:n]] *)
Fixpoint take (n : nat) (s : string) : string :=
  match n with
  | O => EmptyString
  | S n' => match s with
            | EmptyString => EmptyString
            | String c s' => String c (take n' s')
            end
  end.

(** [s.replace(old, new, 1)]: the leftmost occurrence of [old] is replaced;
    an empty [old] occurs at position 0. *)
Fixpoint replace1 (s old new : string) : string :=
  if startswith s old then new ^^ drop (String.length old) s
  else match s with
       | EmptyString => EmptyString
       | String c s' => String c (replace1 s' old new)
       end.

(** [s.lstrip(c)] for a one-character argument. *)
Fixpoint lstrip (s : string) (c : ascii) : string :=
  match s with
  | EmptyString => EmptyString
  | String b s' => if Ascii.eqb b c then lstrip s' c else s
  end.

(** [s.split(sep)] for a one-character separator: never empty, keeps empty
    fields. *)
Fixpoint split (s : string) (sep : ascii) : list string :=
  match s with
  | EmptyString => [EmptyString]
  | String c s' =>
      if Ascii.eqb c sep then EmptyString :: split s' sep
      else match split s' sep with
           | x :: xs => String c x :: xs
           | [] => [String c EmptyString]
           end
  end.

(** [sep.join(parts)] *)
Definition join (sep : string) (parts : list string) : string :=
  String.concat sep parts.

(** [x or default] for an optional string: [None] and [""] are falsy. *)
Definition or_else (x : option string) (default : string) : string :=
  match x with
  | Some s => if String.eqb s "" then default else s
  | None => default
  end.

(** [str(n)] for a natural number. *)
Definition of_nat (n : nat) : string :=
  NilZero.string_of_uint (Nat.to_uint n).

End PyStr.

(* ================================================================== *)
(** ** pathlib.PurePosixPath

    [Path(a) / b] and [str(path)] as pathlib computes them on POSIX: a path
    is parsed into a root (["" ], ["/"] or ["//"]) and its parts; empty and
    ["."] components are dropped; joining with an absolute path discards the
    left operand. *)

Module PurePosixPath.

Record t := mk { root : string; parts : list string }.

Definition sep : ascii := "/"%char.

(** [_PosixFlavour.splitroot] *)
Definition splitroot (part : string) : string * string :=
  match part with
  | String c _ =>
      if Ascii.eqb c sep then
        let stripped_part := PyStr.lstrip part sep in
        if Nat.eqb (String.length part - String.length stripped_part) 2
        then ("//", stripped_part)
        else ("/", stripped_part)
      else ("", part)
  | EmptyString => ("", part)
  end.

Definition is_component (x : string) : bool :=
  negb (String.eqb x "") && negb (String.eqb x ".").

(** [Path(s)] *)
Definition parse (s : string) : t :=
  let (rt, rel) := splitroot s in
  mk rt (filter is_component (PyStr.split rel sep)).

(** [join_parsed_parts]: the operator [/]. *)
Definition truediv (p : t) (key : string) : t :=
  let q := parse key in
  if negb (String.eqb (root q) "") then q
  else mk (root p) (parts p ++ parts q).

(** [str(path)]: the formatted parts, or ["."] when that is empty. *)
Definition to_str (p : t) : string :=
  let s := root p ^^ PyStr.join "/" (parts p) in
  if String.eqb s "" then "." else s.

End PurePosixPath.

(** [GcsPipelineStorage._keyname]: [str(Path(self._path_prefix) / key)]. *)
Definition _keyname (path_prefix key : string) : string :=
  PurePosixPath.to_str (PurePosixPath.truediv (PurePosixPath.parse path_prefix) key).

(** The closure [blobname] of [find]. *)
Definition blobname (path_prefix blob_name : string) : string :=
  let blob_name :=
    if PyStr.startswith blob_name path_prefix
    then PyStr.replace1 blob_name path_prefix ""
    else blob_name in
  if PyStr.startswith blob_name "/" then PyStr.drop 1 blob_name else blob_name.

(* ================================================================== *)
(** ** Regular expressions ([re])

    A compiled pattern is a syntax tree.  [Re.match_] is [Pattern.match]:
    a backtracking match anchored at the start of the text (the end is free),
    greedy, with the leftmost alternative first.  [groupdict] lists every
    named group of the pattern, with [None] for a group that took no part
    in the match. *)

Module Re.

Inductive regex : Type :=
| Empty                              (* the empty pattern *)
| Chr (c : ascii)                    (* a literal character *)
| AnyChar                            (* [.]: any character but a newline *)
| Digit                              (* [\d] *)
| OneOf (negated : bool) (cs : list ascii)  (* a character set *)
| Cat (r1 r2 : regex)                (* concatenation *)
| Alt (r1 r2 : regex)                (* [r1|r2] *)
| Star (r : regex)                   (* [r*], greedy *)
| Repeat (n : nat) (r : regex)       (* [r{n}] *)
| Named (name : string) (r : regex)  (* [(?P<name>r)] *)
| EndOfString.                       (* [$] *)

(** A literal string. *)
Fixpoint lit (s : string) : regex :=
  match s with
  | EmptyString => Empty
  | String c s' => Cat (Chr c) (lit s')
  end.

(** Captured groups during a match, and the dictionary [groupdict()]. *)
Definition captures := list (string * string).
Definition groupdict := list (string * option string).

Fixpoint lookup {V : Type} (key : string) (d : list (string * V)) : option V :=
  match d with
  | [] => None
  | (k, v) :: d' => if String.eqb k key then Some v else lookup key d'
  end.

Definition is_digit (c : ascii) : bool :=
  let n := nat_of_ascii c in Nat.leb 48 n && Nat.leb n 57.

Definition newline : ascii := ascii_of_nat 10.

Fixpoint mem (c : ascii) (cs : list ascii) : bool :=
  match cs with
  | [] => false
  | x :: cs' => Ascii.eqb x c || mem c cs'
  end.

(** The text consumed between [s] and its suffix [s']. *)
Definition consumed (s s' : string) : string :=
  PyStr.take (String.length s - String.length s') s.

Definition one (accept : ascii -> bool) (s : string) (env : captures)
    (k : string -> captures -> option captures) : option captures :=
  match s with
  | String c s' => if accept c then k s' env else None
  | EmptyString => None
  end.

Definition or_try (a b : option captures) : option captures :=
  match a with
  | Some e => Some e
  | None => b
  end.

(** The matcher, in continuation-passing style: [k] is what remains to be
    matched after [r].  An iteration of a star must consume text, so the
    length of the text bounds the number of iterations. *)
Fixpoint run (r : regex) (s : string) (env : captures)
    (k : string -> captures -> option captures) {struct r} : option captures :=
  match r with
  | Empty => k s env
  | Chr c => one (Ascii.eqb c) s env k
  | AnyChar => one (fun c => negb (Ascii.eqb c newline)) s env k
  | Digit => one is_digit s env k
  | OneOf negated cs => one (fun c => xorb negated (mem c cs)) s env k
  | Cat r1 r2 => run r1 s env (fun s' env' => run r2 s' env' k)
  | Alt r1 r2 => or_try (run r1 s env k) (run r2 s env k)
  | Star r1 =>
      (fix loop (fuel : nat) (s : string) (env : captures) : option captures :=
         match fuel with
         | O => k s env
         | S fuel' =>
             or_try
               (run r1 s env
                  (fun s' env' =>
                     if Nat.ltb (String.length s') (String.length s)
                     then loop fuel' s' env' else None))
               (k s env)
         end) (String.length s) s env
  | Repeat n r1 =>
      (fix rep (n : nat) (s : string) (env : captures) : option captures :=
         match n with
         | O => k s env
         | S n' => run r1 s env (fun s' env' => rep n' s' env')
         end) n s env
  | Named name r1 =>
      run r1 s env (fun s' env' => k s' ((name, consumed s s') :: env'))
  | EndOfString =>
      if String.eqb s "" || String.eqb s (String newline "") then k s env
      else None
  end.

(** The named groups of a pattern, in the order of their opening. *)
Fixpoint group_names (r : regex) : list string :=
  match r with
  | Cat r1 r2 | Alt r1 r2 => group_names r1 ++ group_names r2
  | Star r1 | Repeat _ r1 => group_names r1
  | Named name r1 => name :: group_names r1
  | _ => []
  end.

(** [pattern.match(text)], reduced to what [find] uses of the match object:
    [None] when there is no match, else [match.groupdict()]. *)
Definition match_ (pattern : regex) (text : string) : option groupdict :=
  match run pattern text [] (fun _ env => Some env) with
  | Some env => Some (map (fun name => (name, lookup name env)) (group_names pattern))
  | None => None
  end.

End Re.

(* ================================================================== *)
(** ** Exceptions *)

Inductive exn : Type :=
| ValueError (msg : string)
| KeyError (key : string)
| TypeError (msg : string)
| LookupError (msg : string)
| UnicodeDecodeError (encoding : string)
| UnicodeEncodeError (encoding : string)
| NotImplementedError (msg : string)
| NotFound (name : string)
| ServiceUnavailable.

Inductive result (A : Type) : Type :=
| Return (a : A)
| Raise (e : exn).
Arguments Return {A} a.
Arguments Raise {A} e.

Definition bind {A C : Type} (m : result A) (f : A -> result C) : result C :=
  match m with
  | Return a => f a
  | Raise e => Raise e
  end.

Notation "x <- m ;; f" := (bind m (fun x => f))
  (at level 61, m at next level, right associativity).

Definition raises {A : Type} (r : result A) : bool :=
  match r with
  | Return _ => false
  | Raise _ => true
  end.

(* ================================================================== *)
(** ** Text codecs ([bytes.decode], [str.encode])

    Payload text is a list of Unicode code points.  Three codecs are
    modelled, under their usual names; any other name is a [LookupError]. *)

Module Codecs.

Definition bytes := list byte.
Definition text := list N.

Inductive codec := Utf8 | Latin1 | Ascii7.

Definition lookup (encoding : string) : option codec :=
  if String.eqb encoding "utf-8" || String.eqb encoding "utf8" then Some Utf8
  else if String.eqb encoding "latin-1" || String.eqb encoding "latin1"
          || String.eqb encoding "iso-8859-1" then Some Latin1
  else if String.eqb encoding "ascii" then Some Ascii7
  else None.

Definition byte_of (n : N) : byte :=
  match Byte.of_N n with
  | Some b => b
  | None => x00
  end.

Definition is_continuation (b : N) : bool := N.leb 128 b && N.ltb b 192.

Definition is_surrogate (cp : N) : bool := N.leb 55296 cp && N.ltb cp 57344.

Definition cons_opt {A : Type} (a : A) (l : option (list A)) : option (list A) :=
  match l with
  | Some l' => Some (a :: l')
  | None => None
  end.

Definition app_opt {A : Type} (a : list A) (l : option (list A)) : option (list A) :=
  match l with
  | Some l' => Some (a ++ l')
  | None => None
  end.

(** Strict UTF-8: no overlong forms, no surrogates, nothing above U+10FFFF. *)
Fixpoint decode_utf8 (bs : list N) : option text :=
  match bs with
  | [] => Some []
  | b0 :: r0 =>
      if N.ltb b0 128 then cons_opt b0 (decode_utf8 r0)
      else if N.leb 194 b0 && N.ltb b0 224 then
        match r0 with
        | b1 :: r1 =>
            if is_continuation b1
            then cons_opt ((b0 - 192) * 64 + (b1 - 128))%N (decode_utf8 r1)
            else None
        | _ => None
        end
      else if N.leb 224 b0 && N.ltb b0 240 then
        match r0 with
        | b1 :: b2 :: r2 =>
            let cp := ((b0 - 224) * 4096 + (b1 - 128) * 64 + (b2 - 128))%N in
            if is_continuation b1 && is_continuation b2
               && N.leb 2048 cp && negb (is_surrogate cp)
            then cons_opt cp (decode_utf8 r2)
            else None
        | _ => None
        end
      else if N.leb 240 b0 && N.ltb b0 245 then
        match r0 with
        | b1 :: b2 :: b3 :: r3 =>
            let cp := ((b0 - 240) * 262144 + (b1 - 128) * 4096
                       + (b2 - 128) * 64 + (b3 - 128))%N in
            if is_continuation b1 && is_continuation b2 && is_continuation b3
               && N.leb 65536 cp && N.leb cp 1114111
            then cons_opt cp (decode_utf8 r3)
            else None
        | _ => None
        end
      else None
  end.

Fixpoint encode_utf8 (t : text) : option (list N) :=
  match t with
  | [] => Some []
  | cp :: t' =>
      if N.ltb cp 128 then cons_opt cp (encode_utf8 t')
      else if N.ltb cp 2048 then
        app_opt [192 + cp / 64; 128 + cp mod 64]%N (encode_utf8 t')
      else if N.ltb cp 65536 then
        if is_surrogate cp then None
        else app_opt [224 + cp / 4096; 128 + (cp / 64) mod 64; 128 + cp mod 64]%N
                     (encode_utf8 t')
      else if N.leb cp 1114111 then
        app_opt [240 + cp / 262144; 128 + (cp / 4096) mod 64;
                 128 + (cp / 64) mod 64; 128 + cp mod 64]%N (encode_utf8 t')
      else None
  end.

(** A codec whose code points are the byte values below [limit]. *)
Definition all_below (limit : N) (l : list N) : option (list N) :=
  if forallb (fun n => N.ltb n limit) l then Some l else None.

(** [blob_data.decode(coding)] *)
Definition decode (data : bytes) (coding : string) : result text :=
  match lookup coding with
  | None => Raise (LookupError coding)
  | Some c =>
      let ns := map Byte.to_N data in
      match (match c with
             | Utf8 => decode_utf8 ns
             | Latin1 => Some ns
             | Ascii7 => all_below 128 ns
             end) with
      | Some t => Return t
      | None => Raise (UnicodeDecodeError coding)
      end
  end.

(** [value.encode(coding)] *)
Definition encode (value : text) (coding : string) : result bytes :=
  match lookup coding with
  | None => Raise (LookupError coding)
  | Some c =>
      match (match c with
             | Utf8 => encode_utf8 value
             | Latin1 => all_below 256 value
             | Ascii7 => all_below 128 value
             end) with
      | Some ns => Return (map byte_of ns)
      | None => Raise (UnicodeEncodeError coding)
      end
  end.

End Codecs.

(** A stored or fetched value: [bytes] or [str]. *)
Inductive value : Type :=
| Bytes (data : Codecs.bytes)
| Str (s : Codecs.text).

(* ================================================================== *)
(** ** The storage client

    The calls the source makes on [google.cloud.storage]: each takes the
    state [B] of the service and the name of the bucket, and either returns
    or raises.  A call that changes the service returns its new state.
    [from_service_account_json] builds the client from the file of
    credentials that the connection string names; it asks nothing of the
    service, and raises when the file cannot be loaded. *)

Record StorageClient (B : Type) : Type := {
  from_service_account_json : string -> result unit;
  lookup_bucket : B -> string -> result bool;
  create_bucket : B -> string -> result B;
  delete_bucket : B -> string -> result B;
  list_blobs : B -> string -> string -> result (list string);
  download_as_bytes : B -> string -> string -> result Codecs.bytes;
  upload_from_string : B -> string -> string -> Codecs.bytes -> result B;
  blob_exists : B -> string -> string -> result bool;
  blob_delete : B -> string -> string -> result B
}.
Arguments from_service_account_json {B}.
Arguments lookup_bucket {B}.
Arguments create_bucket {B}.
Arguments delete_bucket {B}.
Arguments list_blobs {B}.
Arguments download_as_bytes {B}.
Arguments upload_from_string {B}.
Arguments blob_exists {B}.
Arguments blob_delete {B}.

(* ================================================================== *)
(** ** Logging, progress and the events of an enumeration *)

Definition file_filter_t := list (string * Re.regex).

Inductive log_record : Type :=
| InfoCreating (bucket path : string)
| InfoSearch (bucket : string) (file_pattern : Re.regex)
| ErrorFinding (base_dir : string) (file_pattern : Re.regex)
    (file_filter : option file_filter_t) (e : exn)
| ErrorGetting (key : string) (e : exn)
| ErrorSetting (key : string) (e : exn).

(** [datashaper.Progress] *)
Record Progress : Type := {
  total_items : nat;
  completed_items : nat;
  description : string
}.

Definition _create_progress_status (num_loaded num_filtered num_total : nat)
  : Progress :=
  {| total_items := num_total;
     completed_items := num_loaded + num_filtered;
     description := PyStr.of_nat num_loaded ^^ " files loaded ("
                    ^^ PyStr.of_nat num_filtered ^^ " filtered)" |}.

(** What a caller that consumes [find] to its end observes, in order: the
    pairs yielded, the calls of the progress sink, the log records. *)
Inductive event : Type :=
| Yield (item : string * Re.groupdict)
| Report (status : Progress)
| Logged (record : log_record).

Definition yielded (trace : list event) : list (string * Re.groupdict) :=
  flat_map (fun ev => match ev with Yield item => [item] | _ => [] end) trace.

Definition reported (trace : list event) : list Progress :=
  flat_map (fun ev => match ev with Report p => [p] | _ => [] end) trace.

(** [ProgressReporter]: the progress sink is a callable of the caller; a
    call returns or raises. *)
Definition ProgressReporter := Progress -> result unit.

(* ================================================================== *)
(** ** GcsPipelineStorage *)

Record GcsPipelineStorage : Type := {
  _connection_string : string;
  _bucket_name : string;
  _path_prefix : string;
  _encoding : string
}.

(** The closure [item_filter] of [find]:
    [all(re.match(value, item[key]) for key, value in file_filter.items())].
    The pairs are visited in the order of the dictionary, up to the first
    that does not match; [item[key]] raises [KeyError] for a missing key and
    [re.match] raises [TypeError] on [None]. *)
Fixpoint all_match (items : file_filter_t) (item : Re.groupdict) : result bool :=
  match items with
  | [] => Return true
  | (key, value) :: items' =>
      match Re.lookup key item with
      | None => Raise (KeyError key)
      | Some None => Raise (TypeError "expected string or bytes-like object")
      | Some (Some text) =>
          match Re.match_ value text with
          | Some _ => all_match items' item
          | None => Return false
          end
      end
  end.

Definition item_filter (file_filter : option file_filter_t) (item : Re.groupdict)
  : result bool :=
  match file_filter with
  | None => Return true
  | Some items => all_match items item
  end.

Section Storage.

Context {B : Type} (client : StorageClient B).

(** [container_exists] *)
Definition container_exists (self : GcsPipelineStorage) (b : B) : result bool :=
  lookup_bucket client b (_bucket_name self).

(** [create_container] *)
Definition create_container (self : GcsPipelineStorage) (b : B) : result B :=
  found <- container_exists self b ;;
  if negb found then create_bucket client b (_bucket_name self) else Return b.

(** [delete_container] *)
Definition delete_container (self : GcsPipelineStorage) (b : B) : result B :=
  found <- container_exists self b ;;
  if found then delete_bucket client b (_bucket_name self) else Return b.

(** [__init__]; the last parameter of the source is never read.  The
    client is built after the test of the connection string and before the
    log record; an exception there leaves the constructor at once. *)
Definition __init__ (connection_string : option string) (bucket_name : string)
    (encoding path_prefix : option string) (b : B)
  : result (GcsPipelineStorage * B) * list log_record :=
  let connection_string := PyStr.or_else connection_string "" in
  if String.eqb connection_string "" then
    (Raise (ValueError "A connection_string is required for GCS access."), [])
  else
    match from_service_account_json client connection_string with
    | Raise e => (Raise e, [])
    | Return _ =>
        let self := {| _connection_string := connection_string;
                       _bucket_name := bucket_name;
                       _path_prefix := PyStr.or_else path_prefix "";
                       _encoding := PyStr.or_else encoding "utf-8" |} in
        (b' <- create_container self b ;; Return (self, b'),
         [InfoCreating (_bucket_name self) (_path_prefix self)])
    end.

Section Find.

Variable self : GcsPipelineStorage.
Variable file_pattern : Re.regex.
Variable base_dir : string.
Variable progress : bool.
Variable file_filter : option file_filter_t.
Variable max_count : Z.
Variable num_total : nat.

(** The last statement of the loop body: the call of the progress sink. *)
Definition report (num_loaded num_filtered : nat) : list event :=
  if progress
  then [Report (_create_progress_status num_loaded num_filtered num_total)]
  else [].

(** The loop of [find] from a given candidate on, with the counters as they
    stand.  A [break] ends the generator normally, before the progress call
    of that iteration; an exception of [item_filter] ends it abnormally. *)
Fixpoint find_loop (all_blobs : list string) (num_loaded num_filtered : nat)
  : list event * result unit :=
  match all_blobs with
  | [] => ([], Return tt)
  | blob :: rest =>
      let rejected :=
        let num_filtered := S num_filtered in
        let (trace, r) := find_loop rest num_loaded num_filtered in
        (report num_loaded num_filtered ++ trace, r) in
      match Re.match_ file_pattern blob with
      | Some group =>
          if PyStr.startswith blob base_dir then
            match item_filter file_filter group with
            | Raise e => ([], Raise e)
            | Return true =>
                let item := (blobname (_path_prefix self) blob, group) in
                let num_loaded := S num_loaded in
                if (0 <? max_count)%Z && (max_count <=? Z.of_nat num_loaded)%Z
                then ([Yield item], Return tt)
                else
                  let (trace, r) := find_loop rest num_loaded num_filtered in
                  (Yield item :: report num_loaded num_filtered ++ trace, r)
            | Return false => rejected
            end
          else rejected
      | None => rejected
      end
  end.

End Find.

(** [find], consumed to its end.  The listing is requested once, before the
    loop; whatever is raised inside the [try] is logged and raised again. *)
Definition find (self : GcsPipelineStorage) (b : B) (file_pattern : Re.regex)
    (base_dir : option string) (progress : bool)
    (file_filter : option file_filter_t) (max_count : Z)
  : list event * result unit :=
  let base_dir := PyStr.or_else base_dir "" in
  let info := Logged (InfoSearch (_bucket_name self) file_pattern) in
  let failed e := Logged (ErrorFinding base_dir file_pattern file_filter e) in
  match list_blobs client b (_bucket_name self) base_dir with
  | Raise e => ([info; failed e], Raise e)
  | Return all_blobs =>
      let num_total := List.length all_blobs in
      match find_loop self file_pattern base_dir progress file_filter
                      max_count num_total all_blobs 0 0 with
      | (trace, Raise e) => (info :: trace ++ [failed e], Raise e)
      | (trace, Return tt) => (info :: trace, Return tt)
      end
  end.

(** The loop of [find] with the sink as the callable it is: the call is
    made inside the [try], so an exception of the sink ends the generator
    as one of the filter does.  [find_loop] above is this loop for a sink
    that returns. *)
Fixpoint find_loop_sink (self : GcsPipelineStorage) (file_pattern : Re.regex)
    (base_dir : string) (progress : option ProgressReporter)
    (file_filter : option file_filter_t) (max_count : Z) (num_total : nat)
    (all_blobs : list string) (num_loaded num_filtered : nat)
  : list event * result unit :=
  match all_blobs with
  | [] => ([], Return tt)
  | blob :: rest =>
      let next num_loaded num_filtered :=
        let (trace, r) :=
          find_loop_sink self file_pattern base_dir progress file_filter
                         max_count num_total rest num_loaded num_filtered in
        match progress with
        | None => (trace, r)
        | Some sink =>
            let status :=
              _create_progress_status num_loaded num_filtered num_total in
            match sink status with
            | Return _ => (Report status :: trace, r)
            | Raise e => ([Report status], Raise e)
            end
        end in
      let rejected := next num_loaded (S num_filtered) in
      match Re.match_ file_pattern blob with
      | Some group =>
          if PyStr.startswith blob base_dir then
            match item_filter file_filter group with
            | Raise e => ([], Raise e)
            | Return true =>
                let item := (blobname (_path_prefix self) blob, group) in
                let num_loaded := S num_loaded in
                if (0 <? max_count)%Z && (max_count <=? Z.of_nat num_loaded)%Z
                then ([Yield item], Return tt)
                else
                  let (trace, r) := next num_loaded num_filtered in
                  (Yield item :: trace, r)
            | Return false => rejected
            end
          else rejected
      | None => rejected
      end
  end.

(** [find] with the sink as a callable, consumed to its end. *)
Definition find_sink (self : GcsPipelineStorage) (b : B)
    (file_pattern : Re.regex) (base_dir : option string)
    (progress : option ProgressReporter)
    (file_filter : option file_filter_t) (max_count : Z)
  : list event * result unit :=
  let base_dir := PyStr.or_else base_dir "" in
  let info := Logged (InfoSearch (_bucket_name self) file_pattern) in
  let failed e := Logged (ErrorFinding base_dir file_pattern file_filter e) in
  match list_blobs client b (_bucket_name self) base_dir with
  | Raise e => ([info; failed e], Raise e)
  | Return all_blobs =>
      let num_total := List.length all_blobs in
      match find_loop_sink self file_pattern base_dir progress file_filter
                           max_count num_total all_blobs 0 0 with
      | (trace, Raise e) => (info :: trace ++ [failed e], Raise e)
      | (trace, Return tt) => (info :: trace, Return tt)
      end
  end.

(** [get]: any exception of the body is logged and [None] is returned. *)
Definition get (self : GcsPipelineStorage) (b : B) (key : string)
    (as_bytes : bool) (encoding : option string)
  : result (option value) * list log_record :=
  let key := _keyname (_path_prefix self) key in
  let body :=
    blob_data <- download_as_bytes client b (_bucket_name self) key ;;
    if negb as_bytes then
      let coding := PyStr.or_else encoding "utf-8" in
      decoded <- Codecs.decode blob_data coding ;;
      Return (Str decoded)
    else Return (Bytes blob_data) in
  match body with
  | Return blob_data => (Return (Some blob_data), [])
  | Raise e => (Return None, [ErrorGetting key e])
  end.

(** [set]: any exception of the body is logged and swallowed. *)
Definition set (self : GcsPipelineStorage) (b : B) (key : string)
    (value_ : value) (encoding : option string)
  : result unit * B * list log_record :=
  let key := _keyname (_path_prefix self) key in
  let body :=
    match value_ with
    | Bytes data => upload_from_string client b (_bucket_name self) key data
    | Str s =>
        let coding := PyStr.or_else encoding "utf-8" in
        data <- Codecs.encode s coding ;;
        upload_from_string client b (_bucket_name self) key data
    end in
  match body with
  | Return b' => (Return tt, b', [])
  | Raise e => (Return tt, b, [ErrorSetting key e])
  end.

(** [has] *)
Definition has (self : GcsPipelineStorage) (b : B) (key : string) : result bool :=
  let key := _keyname (_path_prefix self) key in
  blob_exists client b (_bucket_name self) key.

(** [delete] *)
Definition delete (self : GcsPipelineStorage) (b : B) (key : string)
  : result unit * B :=
  let key := _keyname (_path_prefix self) key in
  match blob_delete client b (_bucket_name self) key with
  | Return b' => (Return tt, b')
  | Raise e => (Raise e, b)
  end.

(** The loop of [clear]: what was deleted before an exception stays
    deleted. *)
Fixpoint delete_each (bucket : string) (blobs : list string) (b : B)
  : result unit * B :=
  match blobs with
  | [] => (Return tt, b)
  | blob :: rest =>
      match blob_delete client b bucket blob with
      | Return b' => delete_each bucket rest b'
      | Raise e => (Raise e, b)
      end
  end.

(** [clear] *)
Definition clear (self : GcsPipelineStorage) (b : B) : result unit * B :=
  match list_blobs client b (_bucket_name self) (_path_prefix self) with
  | Return blobs => delete_each (_bucket_name self) blobs b
  | Raise e => (Raise e, b)
  end.

(** [child] *)
Definition child (self : GcsPipelineStorage) (name : option string) (b : B)
  : result (GcsPipelineStorage * B) * list log_record :=
  match name with
  | None => (Return (self, b), [])
  | Some name =>
      let path := _keyname (_path_prefix self) name in
      __init__ (Some (_connection_string self)) (_bucket_name self)
               (Some (_encoding self)) (Some path) b
  end.

(** [keys] *)
Definition keys (self : GcsPipelineStorage) : result (list string) :=
  Raise (NotImplementedError "GCS storage does not yet support listing keys.").

End Storage.

(* ================================================================== *)
(** ** An in-memory bucket

    One bucket of the service: its name, whether it has been created, and
    its objects in listing order, each name at most once.  [online = false]
    makes every call on the service fail; the credentials always load.  [list_blobs] selects by plain string prefix, as
    the service does. *)

Module Mem.

Record t : Type := {
  online : bool;
  bucket : string;
  created : bool;
  objects : list (string * Codecs.bytes)
}.

Definition with_objects (m : t) (objs : list (string * Codecs.bytes)) : t :=
  {| online := online m; bucket := bucket m; created := created m;
     objects := objs |}.

Definition names (m : t) : list string := map fst (objects m).

(** The bucket of a request, when it can be served. *)
Definition reach {A : Type} (m : t) (name : string) (k : result A) : result A :=
  if negb (online m) then Raise ServiceUnavailable
  else if negb (String.eqb name (bucket m)) || negb (created m)
       then Raise (NotFound name)
       else k.

Definition has_name (blob : string) (objs : list (string * Codecs.bytes)) : bool :=
  existsb (fun o => String.eqb (fst o) blob) objs.

Definition remove (blob : string) (objs : list (string * Codecs.bytes))
  : list (string * Codecs.bytes) :=
  filter (fun o => negb (String.eqb (fst o) blob)) objs.

Fixpoint put (blob : string) (data : Codecs.bytes)
    (objs : list (string * Codecs.bytes)) : list (string * Codecs.bytes) :=
  match objs with
  | [] => [(blob, data)]
  | (n, d) :: objs' =>
      if String.eqb n blob then (blob, data) :: objs'
      else (n, d) :: put blob data objs'
  end.

Definition client : StorageClient t := {|
  from_service_account_json _ := Return tt;
  lookup_bucket m name :=
    if negb (online m) then Raise ServiceUnavailable
    else Return (String.eqb name (bucket m) && created m);
  create_bucket m name :=
    if negb (online m) then Raise ServiceUnavailable
    else if String.eqb name (bucket m)
         then Return {| online := true; bucket := bucket m; created := true;
                        objects := objects m |}
         else Raise (NotFound name);
  delete_bucket m name :=
    reach m name
      (Return {| online := true; bucket := bucket m; created := false;
                 objects := [] |});
  list_blobs m name prefix :=
    reach m name
      (Return (filter (fun blob => PyStr.startswith blob prefix) (names m)));
  download_as_bytes m name blob :=
    reach m name
      (match Re.lookup blob (objects m) with
       | Some data => Return data
       | None => Raise (NotFound blob)
       end);
  upload_from_string m name blob data :=
    reach m name (Return (with_objects m (put blob data (objects m))));
  blob_exists m name blob :=
    reach m name (Return (has_name blob (objects m)));
  blob_delete m name blob :=
    reach m name
      (if has_name blob (objects m)
       then Return (with_objects m (remove blob (objects m)))
       else Raise (NotFound blob))
|}.

(** A bucket that is up, created, and holds [objs]. *)
Definition of_objects (name : string) (objs : list (string * Codecs.bytes)) : t :=
  {| online := true; bucket := name; created := true; objects := objs |}.

End Mem.

(* ================================================================== *)
(** ** Vocabulary of the statements *)

(** The same storage under another root prefix. *)
Definition with_prefix (self : GcsPipelineStorage) (path_prefix : string)
  : GcsPipelineStorage :=
  {| _connection_string := _connection_string self;
     _bucket_name := _bucket_name self;
     _path_prefix := path_prefix;
     _encoding := _encoding self |}.

(** [s] is left unchanged by [str(Path(s))] and names something: it has no
    empty or ["."] component, no trailing separator, and is not ["."]. *)
Definition normal_path (s : string) : Prop :=
  s <> "." /\ PurePosixPath.to_str (PurePosixPath.parse s) = s.

(** What the body of the loop of [find] decides for one candidate: an
    exception of the filter, the captured groups of an accepted candidate,
    or a rejection. *)
Definition verdict (file_pattern : Re.regex) (base_dir : string)
    (file_filter : option file_filter_t) (blob : string)
  : result (option Re.groupdict) :=
  match Re.match_ file_pattern blob with
  | Some group =>
      if PyStr.startswith blob base_dir then
        ok <- item_filter file_filter group ;;
        Return (if ok then Some group else None)
      else Return None
  | None => Return None
  end.

Definition accepts (file_pattern : Re.regex) (base_dir : string)
    (file_filter : option file_filter_t) (blob : string) : bool :=
  match verdict file_pattern base_dir file_filter blob with
  | Return (Some _) => true
  | _ => false
  end.

(** The test that precedes [break]. *)
Definition cap_reached (max_count : Z) (num_loaded : nat) : bool :=
  ((0 <? max_count) && (max_count <=? Z.of_nat num_loaded))%Z.

(** The enumeration was cut by [max_count]: the cap is positive and as many
    pairs were yielded. *)
Definition truncated (max_count : Z) (trace : list event) : Prop :=
  (0 < max_count)%Z /\ Z.of_nat (List.length (yielded trace)) = max_count.


(** The bytes that [set] hands to the backend for a value. *)
Definition payload (value_ : value) (encoding : option string)
  : result Codecs.bytes :=
  match value_ with
  | Bytes data => Return data
  | Str s => Codecs.encode s (PyStr.or_else encoding "utf-8")
  end.

(** [name in blobs] *)
Definition listed (blobs : list string) (name : string) : bool :=
  existsb (String.eqb name) blobs.

(** The example of the specification: a pattern, a listing, a namespace. *)

(** [(?P<year>\d{4})\.json$] *)
Definition year_json : Re.regex :=
  Re.Cat (Re.Named "year" (Re.Repeat 4 Re.Digit))
         (Re.Cat (Re.lit ".json") Re.EndOfString).

Definition out_listing : list string :=
  ["out/2021.json"; "out/2022.json"; "out/notes.txt"].

Definition out_storage : GcsPipelineStorage :=
  {| _connection_string := "sa.json"; _bucket_name := "bkt";
     _path_prefix := "out"; _encoding := "utf-8" |}.

Definition out_bucket : Mem.t :=
  Mem.of_objects "bkt" (map (fun name => (name, [])) out_listing).

(** [sep in s] *)
Fixpoint has_sep (s : string) : bool :=
  match s with
  | EmptyString => false
  | String c s' => Ascii.eqb c PurePosixPath.sep || has_sep s'
  end.

(** The paths that parsing produces: one of the three roots, and parts that
    are neither empty nor ["."] and hold no separator. *)
Definition good_part (x : string) : Prop :=
  PurePosixPath.is_component x = true /\ has_sep x = false.

Definition parsed_path (q : PurePosixPath.t) : Prop :=
  (PurePosixPath.root q = "" \/ PurePosixPath.root q = "/"
   \/ PurePosixPath.root q = "//")
  /\ Forall good_part (PurePosixPath.parts q).

(** A key or prefix that names something relative: not empty, no leading
    separator. *)
Definition relative_name (s : string) : Prop :=
  s <> "" /\ PyStr.startswith s "/" = false.

(** The in-memory bucket serves the requests of a storage. *)
Definition serves (m : Mem.t) (self : GcsPipelineStorage) : Prop :=
  Mem.online m = true /\ Mem.created m = true /\ _bucket_name self = Mem.bucket m.


(** The call of the sink that ends an iteration, followed by what the rest
    of the loop [k] does when the call returns. *)
Definition sink_step (progress : option ProgressReporter) (num_total : nat)
    (num_loaded num_filtered : nat) (k : list event * result unit)
  : list event * result unit :=
  match progress with
  | None => k
  | Some sink =>
      let status := _create_progress_status num_loaded num_filtered num_total in
      match sink status with
      | Return _ => (Report status :: fst k, snd k)
      | Raise e => ([Report status], Raise e)
      end
  end.

(** The status that is due once the candidates [done] are dealt with: the
    accepted ones loaded, the others filtered. *)
Definition status_after (file_pattern : Re.regex) (base_dir : string)
    (file_filter : option file_filter_t) (num_total : nat)
    (done : list string) : Progress :=
  _create_progress_status
    (List.length (filter (accepts file_pattern base_dir file_filter) done))
    (List.length (filter (fun x => negb (accepts file_pattern base_dir
                                                 file_filter x)) done))
    num_total.

(** One status for each of the candidates [done], in their order. *)
Definition statuses (file_pattern : Re.regex) (base_dir : string)
    (file_filter : option file_filter_t) (num_total : nat)
    (done : list string) : list Progress :=
  map (fun i => status_after file_pattern base_dir file_filter num_total
                             (firstn i done))
      (seq 1 (List.length done)).

(** The same statuses, counted up from given counters. *)
Fixpoint statuses_from (file_pattern : Re.regex) (base_dir : string)
    (file_filter : option file_filter_t) (num_total : nat)
    (num_loaded num_filtered : nat) (done : list string) : list Progress :=
  match done with
  | [] => []
  | x :: done' =>
      if accepts file_pattern base_dir file_filter x
      then _create_progress_status (S num_loaded) num_filtered num_total
             :: statuses_from file_pattern base_dir file_filter num_total
                              (S num_loaded) num_filtered done'
      else _create_progress_status num_loaded (S num_filtered) num_total
             :: statuses_from file_pattern base_dir file_filter num_total
                              num_loaded (S num_filtered) done'
  end.

(** The loop goes through the candidates [done] and on: the filter raises
    on none of them and [max_count] is not reached among them. *)
Definition finishes (file_pattern : Re.regex) (base_dir : string)
    (file_filter : option file_filter_t) (max_count : Z)
    (done : list string) : Prop :=
  (forall x, In x done ->
             raises (verdict file_pattern base_dir file_filter x) = false)
  /\ (max_count <= 0
      \/ Z.of_nat (List.length
                     (filter (accepts file_pattern base_dir file_filter) done))
         < max_count)%Z.

(** After the candidates [done], the loop ends at [blob] before the call of
    the sink: the filter raises on it, or it is accepted and reaches
    [max_count]. *)
Definition stops (file_pattern : Re.regex) (base_dir : string)
    (file_filter : option file_filter_t) (max_count : Z)
    (done : list string) (blob : string) : Prop :=
  raises (verdict file_pattern base_dir file_filter blob) = true
  \/ (accepts file_pattern base_dir file_filter blob = true
      /\ cap_reached max_count
           (S (List.length
                 (filter (accepts file_pattern base_dir file_filter) done)))
         = true).


(* ================================================================== *)
(** * Properties *)

(** ** Strings *)

Lemma append_empty_r (s : string) : s ^^ "" = s.
Proof. induction s as [|c s IH]; simpl; [reflexivity | now rewrite IH]. Qed.

Lemma append_assoc (a b c : string) : (a ^^ b) ^^ c = a ^^ b ^^ c.
Proof. induction a as [|x a IH]; simpl; [reflexivity | now rewrite IH]. Qed.

Lemma startswith_append (p x : string) : PyStr.startswith (p ^^ x) p = true.
Proof.
  induction p as [|c p IH]; simpl; [reflexivity|].
  now rewrite Ascii.eqb_refl, IH.
Qed.

Lemma drop_append (p x : string) : PyStr.drop (String.length p) (p ^^ x) = x.
Proof. induction p as [|c p IH]; simpl; [reflexivity | exact IH]. Qed.

Lemma replace1_at_start (s old new : string) :
  PyStr.startswith s old = true ->
  PyStr.replace1 s old new = new ^^ PyStr.drop (String.length old) s.
Proof. intros H. destruct s; simpl; rewrite H; reflexivity. Qed.

Lemma startswith_empty (s : string) : PyStr.startswith s "" = true.
Proof. reflexivity. Qed.

(** A string that starts with [q] and with a shorter [p] makes [q] start
    with [p]. *)
Lemma startswith_both (s p q : string) :
  PyStr.startswith s p = true -> PyStr.startswith s q = true ->
  String.length p <= String.length q -> PyStr.startswith q p = true.
Proof.
  revert s q. induction p as [|a p IH]; intros s q Hp Hq Hlen; [reflexivity|].
  destruct q as [|b q]; simpl in Hlen; [lia|].
  destruct s as [|c s]; simpl in Hp, Hq; [discriminate|].
  apply andb_true_iff in Hp as [Hca Hp]. apply andb_true_iff in Hq as [Hcb Hq].
  apply Ascii.eqb_eq in Hca, Hcb. subst a b. simpl.
  rewrite Ascii.eqb_refl. simpl. apply (IH s q); auto. lia.
Qed.

Lemma join_cons (x : string) (l : list string) :
  l <> [] -> PyStr.join "/" (x :: l) = x ^^ "/" ^^ PyStr.join "/" l.
Proof. destruct l; [congruence | reflexivity]. Qed.

Lemma join_app (a b : list string) :
  a <> [] -> b <> [] ->
  PyStr.join "/" (a ++ b) = PyStr.join "/" a ^^ "/" ^^ PyStr.join "/" b.
Proof.
  intros Ha Hb. induction a as [|x a IH]; [congruence|].
  destruct a as [|y a].
  - simpl app. now rewrite join_cons.
  - change ((x :: y :: a) ++ b) with (x :: (y :: a) ++ b).
    rewrite join_cons by discriminate. rewrite IH by discriminate.
    rewrite (join_cons x (y :: a)) by discriminate.
    now rewrite !append_assoc.
Qed.

(** ** Paths *)

Lemma parse_relative (k : string) :
  PyStr.startswith k "/" = false -> PurePosixPath.root (PurePosixPath.parse k) = "".
Proof.
  intros H. unfold PurePosixPath.parse, PurePosixPath.splitroot.
  destruct k as [|c k]; [reflexivity|].
  simpl in H. rewrite andb_true_r in H. unfold PurePosixPath.sep.
  rewrite H. reflexivity.
Qed.


Lemma to_str_nonempty (q : PurePosixPath.t) (s : string) :
  PurePosixPath.root q ^^ PyStr.join "/" (PurePosixPath.parts q) = s ->
  s <> "" -> PurePosixPath.to_str q = s.
Proof.
  intros Hs Hne. unfold PurePosixPath.to_str. rewrite Hs.
  apply String.eqb_neq in Hne. now rewrite Hne.
Qed.

(** A string left unchanged by [str(Path(s))], other than ["."], is its own
    root followed by its joined parts. *)
Lemma normal_form (s : string) :
  s <> "." -> PurePosixPath.to_str (PurePosixPath.parse s) = s ->
  s = PurePosixPath.root (PurePosixPath.parse s)
        ^^ PyStr.join "/" (PurePosixPath.parts (PurePosixPath.parse s))
  /\ s <> "".
Proof.
  intros Hdot H. unfold PurePosixPath.to_str in H.
  destruct (String.eqb _ "") eqn:E.
  - congruence.
  - split; [now symmetry|]. apply String.eqb_neq in E. congruence.
Qed.


Lemma keyname_relative (p k : string) :
  PyStr.startswith k "/" = false ->
  _keyname p k =
  PurePosixPath.to_str
    (PurePosixPath.mk (PurePosixPath.root (PurePosixPath.parse p))
       (PurePosixPath.parts (PurePosixPath.parse p)
        ++ PurePosixPath.parts (PurePosixPath.parse k))).
Proof.
  intros H. unfold _keyname, PurePosixPath.truediv.
  rewrite (parse_relative k H). reflexivity.
Qed.

Lemma blobname_append (p x : string) :
  blobname p (p ^^ x) = if PyStr.startswith x "/" then PyStr.drop 1 x else x.
Proof.
  unfold blobname. rewrite startswith_append.
  rewrite replace1_at_start by apply startswith_append.
  rewrite drop_append. reflexivity.
Qed.

(** ** Key addressing *)

(** C1, as stated, fails: a key that starts with the separator loses the
    prefix when it is resolved and its separator when it is translated back,
    and a key with an empty component comes back normalised. *)
Lemma unresolve_resolve_counterexample :
  blobname "out" (_keyname "out" "/a") <> "/a"
  /\ blobname "out" (_keyname "out" "a//b") <> "a//b".
Proof. split; vm_compute; discriminate. Qed.

(** C1, amended: for a root prefix that is empty or in the normal form of
    pathlib, and a relative key in that normal form, resolving the key and
    translating the address back returns the key. *)
Theorem unresolve_resolve (p k : string) :
  p = "" \/ normal_path p ->
  PyStr.startswith k "/" = false ->
  normal_path k ->
  blobname p (_keyname p k) = k.
Proof.
  intros Hp Hrel [Hkdot Hk].
  destruct (normal_form k Hkdot Hk) as [Ek Hkne].
  rewrite (parse_relative k Hrel) in Ek. simpl in Ek.
  assert (Hparts : PurePosixPath.parts (PurePosixPath.parse k) <> []).
  { intros E. rewrite E in Ek. simpl in Ek. congruence. }
  rewrite (keyname_relative p k Hrel).
  destruct Hp as [-> | [Hpdot Hp]].
  - (* the empty prefix *)
    change (PurePosixPath.parse "") with (PurePosixPath.mk "" []).
    simpl PurePosixPath.root. simpl app.
    rewrite (to_str_nonempty _ k) by (simpl; congruence).
    change k with ("" ^^ k) at 1. rewrite blobname_append.
    now rewrite Hrel.
  - destruct (normal_form p Hpdot Hp) as [Ep Hpne].
    destruct (PurePosixPath.parts (PurePosixPath.parse p)) as [|x ps] eqn:Eparts.
    + (* the prefix is a bare root *)
      simpl in Ep. rewrite append_empty_r in Ep.
      rewrite (to_str_nonempty _ (p ^^ k)).
      * rewrite blobname_append. now rewrite Hrel.
      * simpl. now rewrite <- Ep, <- Ek.
      * destruct p; [congruence | discriminate].
    + rewrite (to_str_nonempty _ (p ^^ "/" ^^ k)).
      * rewrite blobname_append. reflexivity.
      * cbn [PurePosixPath.root PurePosixPath.parts].
        rewrite join_app by (assumption || discriminate).
        rewrite <- Ek. rewrite <- append_assoc. now rewrite <- Ep.
      * destruct p; [congruence | discriminate].
Qed.

Lemma unresolve_resolve_witness :
  ("" = "" \/ normal_path "")
  /\ ("out/2024" = "" \/ normal_path "out/2024")
  /\ PyStr.startswith "reports/a.json" "/" = false
  /\ normal_path "reports/a.json"
  /\ blobname "" (_keyname "" "reports/a.json") = "reports/a.json"
  /\ blobname "out/2024" (_keyname "out/2024" "reports/a.json") = "reports/a.json".
Proof.
  split; [left; reflexivity|].
  split; [right; split; [discriminate | reflexivity]|].
  split; [reflexivity|].
  split; [split; [discriminate | reflexivity]|].
  split.
  - apply (unresolve_resolve "" "reports/a.json");
      [left; reflexivity | reflexivity | split; [discriminate | reflexivity]].
  - apply (unresolve_resolve "out/2024" "reports/a.json");
      [right; split; [discriminate | reflexivity] | reflexivity
      | split; [discriminate | reflexivity]].
Defined.





(** ** The loop of [find] *)

Lemma yielded_app (t1 t2 : list event) :
  yielded (t1 ++ t2) = yielded t1 ++ yielded t2.
Proof. apply flat_map_app. Qed.

Lemma reported_app (t1 t2 : list event) :
  reported (t1 ++ t2) = reported t1 ++ reported t2.
Proof. apply flat_map_app. Qed.

Lemma yielded_yield (item : string * Re.groupdict) (t : list event) :
  yielded (Yield item :: t) = item :: yielded t.
Proof. reflexivity. Qed.

Lemma reported_yield (item : string * Re.groupdict) (t : list event) :
  reported (Yield item :: t) = reported t.
Proof. reflexivity. Qed.

Lemma yielded_report (progress : bool) (num_total l f : nat) :
  yielded (report progress num_total l f) = [].
Proof. unfold report. now destruct progress. Qed.

Lemma reported_report (num_total l f : nat) (t : list event) :
  reported (report true num_total l f ++ t)
  = _create_progress_status l f num_total :: reported t.
Proof. reflexivity. Qed.

Section Loop.

Variable self : GcsPipelineStorage.
Variable file_pattern : Re.regex.
Variable base_dir : string.
Variable progress : bool.
Variable file_filter : option file_filter_t.
Variable max_count : Z.
Variable num_total : nat.

Let loop := find_loop self file_pattern base_dir progress file_filter
                      max_count num_total.
Let item_of (blob : string) (group : Re.groupdict) :=
  (blobname (_path_prefix self) blob, group).

(** One iteration, by the verdict on the candidate. *)
Lemma find_loop_cons (blob : string) (rest : list string) (l f : nat) :
  loop (blob :: rest) l f =
  match verdict file_pattern base_dir file_filter blob with
  | Raise e => ([], Raise e)
  | Return (Some group) =>
      if cap_reached max_count (S l) then ([Yield (item_of blob group)], Return tt)
      else (Yield (item_of blob group)
              :: report progress num_total (S l) f ++ fst (loop rest (S l) f),
            snd (loop rest (S l) f))
  | Return None =>
      (report progress num_total l (S f) ++ fst (loop rest l (S f)),
       snd (loop rest l (S f)))
  end.
Proof.
  unfold loop, verdict, cap_reached, item_of. cbn [find_loop].
  destruct (Re.match_ file_pattern blob) as [group|].
  - destruct (PyStr.startswith blob base_dir).
    + destruct (item_filter file_filter group) as [[|]|e]; cbn [bind].
      * destruct (_ && _)%bool; [reflexivity|].
        now destruct (find_loop _ _ _ _ _ _ _ rest (S l) f).
      * now destruct (find_loop _ _ _ _ _ _ _ rest l (S f)).
      * reflexivity.
    + now destruct (find_loop _ _ _ _ _ _ _ rest l (S f)).
  - now destruct (find_loop _ _ _ _ _ _ _ rest l (S f)).
Qed.

Lemma find_loop_nil (l f : nat) : loop [] l f = ([], Return tt).
Proof. reflexivity. Qed.

End Loop.

Lemma cap_unbounded (m : Z) (l : nat) : (m <= 0)%Z -> cap_reached m l = false.
Proof.
  intros H. unfold cap_reached.
  destruct (Z.ltb_spec 0 m); [lia | reflexivity].
Qed.

Lemma cap_reached_true (n : Z) (l : nat) :
  cap_reached n l = true <-> (0 < n /\ n <= Z.of_nat l)%Z.
Proof.
  unfold cap_reached. rewrite andb_true_iff, Z.ltb_lt, Z.leb_le. tauto.
Qed.

Lemma cap_reached_false (n : Z) (l : nat) :
  cap_reached n l = false <-> (n <= 0 \/ Z.of_nat l < n)%Z.
Proof.
  unfold cap_reached. rewrite andb_false_iff, Z.ltb_ge, Z.leb_gt. tauto.
Qed.

(** The pairs yielded under a cap are the first ones yielded without it;
    the counters and the total only show in the progress reports. *)
Lemma loop_yield_prefix (self : GcsPipelineStorage) (pat : Re.regex)
    (base : string) (progress : bool) (ff : option file_filter_t)
    (total total' : nat) (n m : Z) (blobs : list string) :
  (m <= 0)%Z ->
  forall l f l' f', (Z.of_nat l < n)%Z ->
    yielded (fst (find_loop self pat base progress ff n total blobs l f))
    = firstn (Z.to_nat n - l)
        (yielded (fst (find_loop self pat base progress ff m total' blobs l' f'))).
Proof.
  intros Hm. induction blobs as [|blob rest IH]; intros l f l' f' Hl.
  - simpl. now rewrite firstn_nil.
  - rewrite !find_loop_cons.
    destruct (verdict pat base ff blob) as [[group|]|e].
    + rewrite (cap_unbounded m) by assumption.
      destruct (cap_reached n (S l)) eqn:Hcap; cbn [fst].
      * apply cap_reached_true in Hcap.
        replace (Z.to_nat n - l) with 1 by lia.
        rewrite !yielded_yield. reflexivity.
      * apply cap_reached_false in Hcap.
        replace (Z.to_nat n - l) with (S (Z.to_nat n - S l)) by lia.
        rewrite !yielded_yield, !yielded_app, !yielded_report. cbn [app firstn].
        f_equal. apply IH. lia.
    + cbn [fst]. rewrite !yielded_app, !yielded_report. cbn [app].
      now apply IH.
    + simpl. now rewrite firstn_nil.
Qed.

Lemma loop_yield_bound (self : GcsPipelineStorage) (pat : Re.regex)
    (base : string) (progress : bool) (ff : option file_filter_t)
    (total : nat) (n : Z) (blobs : list string) :
  forall l f, (Z.of_nat l < n)%Z ->
    (Z.of_nat (l + List.length
                 (yielded (fst (find_loop self pat base progress ff n total blobs l f))))
     <= n)%Z.
Proof.
  induction blobs as [|blob rest IH]; intros l f Hl.
  - simpl. lia.
  - rewrite find_loop_cons.
    destruct (verdict pat base ff blob) as [[group|]|e].
    + destruct (cap_reached n (S l)) eqn:Hcap; cbn [fst].
      * apply cap_reached_true in Hcap. simpl. lia.
      * apply cap_reached_false in Hcap.
        rewrite yielded_yield, yielded_app, yielded_report. cbn [app List.length].
        specialize (IH (S l) f). lia.
    + cbn [fst]. rewrite yielded_app, yielded_report. cbn [app].
      now apply IH.
    + simpl. lia.
Qed.

(** ** [find] over a listing *)

Section FindFacts.

Context {B : Type} (client : StorageClient B).
Variable self : GcsPipelineStorage.
Variable b : B.
Variable file_pattern : Re.regex.
Variable base_dir : option string.
Variable progress : bool.
Variable file_filter : option file_filter_t.
Variable max_count : Z.

Let base := PyStr.or_else base_dir "".

Lemma find_listed (all_blobs : list string) :
  list_blobs client b (_bucket_name self) base = Return all_blobs ->
  let run := find_loop self file_pattern base progress file_filter max_count
                       (List.length all_blobs) all_blobs 0 0 in
  let out := find client self b file_pattern base_dir progress file_filter
                  max_count in
  yielded (fst out) = yielded (fst run)
  /\ reported (fst out) = reported (fst run)
  /\ snd out = snd run.
Proof.
  intros H run out. subst out. unfold find. fold base. rewrite H. fold run.
  destruct run as [trace [[]|e]]; cbn [fst snd yielded reported flat_map app].
  - auto.
  - fold (yielded (trace ++ [Logged (ErrorFinding base file_pattern file_filter e)])).
    fold (reported (trace ++ [Logged (ErrorFinding base file_pattern file_filter e)])).
    rewrite yielded_app, reported_app. simpl. now rewrite !app_nil_r.
Qed.

Lemma find_unlisted (e : exn) :
  list_blobs client b (_bucket_name self) base = Raise e ->
  find client self b file_pattern base_dir progress file_filter max_count
  = ([Logged (InfoSearch (_bucket_name self) file_pattern);
      Logged (ErrorFinding base file_pattern file_filter e)], Raise e).
Proof. intros H. unfold find. fold base. now rewrite H. Qed.

End FindFacts.

(** ** Truncation *)

(** C3: with [max_count = n > 0], [find] yields at most [n] pairs, and they
    are the first [n] pairs that [find] yields with a non-positive
    [max_count] over the same listing, in the same order. *)
Theorem find_max_count_prefix {B : Type} (client : StorageClient B)
    (self : GcsPipelineStorage) (b : B) (file_pattern : Re.regex)
    (base_dir : option string) (progress : bool)
    (file_filter : option file_filter_t) (n m : Z) :
  (0 < n)%Z -> (m <= 0)%Z ->
  let bounded :=
    yielded (fst (find client self b file_pattern base_dir progress file_filter n)) in
  let unbounded :=
    yielded (fst (find client self b file_pattern base_dir progress file_filter m)) in
  (Z.of_nat (List.length bounded) <= n)%Z
  /\ bounded = firstn (Z.to_nat n) unbounded.
Proof.
  intros Hn Hm bounded unbounded. subst bounded unbounded.
  destruct (list_blobs client b (_bucket_name self) (PyStr.or_else base_dir ""))
    as [all_blobs|e] eqn:Hlist.
  - destruct (find_listed client self b file_pattern base_dir progress
                file_filter n all_blobs Hlist) as (-> & _ & _).
    destruct (find_listed client self b file_pattern base_dir progress
                file_filter m all_blobs Hlist) as (-> & _ & _).
    split.
    + apply (loop_yield_bound self file_pattern _ progress file_filter _ n
               all_blobs 0 0). lia.
    + rewrite (loop_yield_prefix self file_pattern _ progress file_filter
                 (List.length all_blobs) (List.length all_blobs) n m all_blobs
                 Hm 0 0 0 0) by lia.
      now rewrite Nat.sub_0_r.
  - rewrite !(find_unlisted client self b file_pattern base_dir progress
                file_filter _ e Hlist).
    simpl. split; [lia | now rewrite firstn_nil].
Qed.

Lemma find_max_count_prefix_witness :
  let self := {| _connection_string := "sa.json"; _bucket_name := "bkt";
                 _path_prefix := "out"; _encoding := "utf-8" |} in
  let m := Mem.of_objects "bkt" [("out/a1", []); ("out/b", []); ("out/a2", []);
                                 ("out/a3", [])] in
  let pat := Re.Cat (Re.lit "out/a") (Re.Named "n" Re.Digit) in
  (0 < 2)%Z /\ (-1 <= 0)%Z
  /\ yielded (fst (find Mem.client self m pat None true None 2))
     = firstn 2 (yielded (fst (find Mem.client self m pat None true None (-1)))).
Proof.
  intros self m pat.
  split; [lia|]. split; [lia|].
  exact (proj2 (find_max_count_prefix Mem.client self m pat None true None 2 (-1)
                  ltac:(lia) ltac:(lia))).
Defined.

(** ** The example of the specification *)

(** C2, as stated, fails: the pattern is matched from the start of the whole
    address, which begins with the root prefix, so nothing is yielded. *)
Lemma find_year_counterexample :
  list_blobs Mem.client out_bucket "bkt" "" = Return out_listing
  /\ yielded (fst (find Mem.client out_storage out_bucket year_json None false
                        None (-1)))
     <> [("2021.json", [("year", Some "2021")]);
         ("2022.json", [("year", Some "2022")])].
Proof. split; [reflexivity | vm_compute; discriminate]. Qed.

(** C2, amended: on a namespace whose root is ["out"], over the listing
    [out/2021.json, out/2022.json, out/notes.txt], [find] with the pattern
    [(?P<year>\d{4})\.json$] yields nothing, and with the pattern
    [out/(?P<year>\d{4})\.json$] it yields exactly the pairs
    [("2021.json", {"year": "2021"})] and [("2022.json", {"year": "2022"})],
    in that order. *)
Theorem find_year_example {B : Type} (client : StorageClient B)
    (self : GcsPipelineStorage) (b : B) :
  _path_prefix self = "out" ->
  list_blobs client b (_bucket_name self) "" = Return out_listing ->
  yielded (fst (find client self b year_json None false None (-1))) = []
  /\ yielded (fst (find client self b (Re.Cat (Re.lit "out/") year_json) None
                        false None (-1)))
     = [("2021.json", [("year", Some "2021")]);
        ("2022.json", [("year", Some "2022")])].
Proof.
  intros Hprefix Hlist. split.
  - destruct (find_listed client self b year_json None false None (-1)
                out_listing Hlist) as (-> & _ & _).
    destruct self; cbn in Hprefix; subst. reflexivity.
  - destruct (find_listed client self b (Re.Cat (Re.lit "out/") year_json) None
                false None (-1) out_listing Hlist) as (-> & _ & _).
    destruct self; cbn in Hprefix; subst. reflexivity.
Qed.

Lemma find_year_example_witness :
  _path_prefix out_storage = "out"
  /\ list_blobs Mem.client out_bucket (_bucket_name out_storage) ""
     = Return out_listing
  /\ yielded (fst (find Mem.client out_storage out_bucket
                        (Re.Cat (Re.lit "out/") year_json) None false None (-1)))
     = [("2021.json", [("year", Some "2021")]);
        ("2022.json", [("year", Some "2022")])].
Proof.
  split; [reflexivity|]. split; [reflexivity|].
  exact (proj2 (find_year_example Mem.client out_storage out_bucket
                  eq_refl eq_refl)).
Defined.

(** ** The default base directory *)

Lemma verdict_unfiltered (pat : Re.regex) (base blob : string) :
  verdict pat base None blob
  = Return (match Re.match_ pat blob with
            | Some group => if PyStr.startswith blob base then Some group else None
            | None => None
            end).
Proof.
  unfold verdict. destruct (Re.match_ pat blob); [|reflexivity].
  now destruct (PyStr.startswith blob base).
Qed.

(** Without a filter and without a cap, every candidate that the pattern
    matches under the base directory is yielded. *)
Lemma loop_yields_every_match (self : GcsPipelineStorage) (pat : Re.regex)
    (base : string) (progress : bool) (m : Z) (total : nat)
    (blob : string) (group : Re.groupdict) (blobs : list string) :
  (m <= 0)%Z ->
  Re.match_ pat blob = Some group -> PyStr.startswith blob base = true ->
  In blob blobs ->
  forall l f,
    In (blobname (_path_prefix self) blob, group)
       (yielded (fst (find_loop self pat base progress None m total blobs l f))).
Proof.
  intros Hm Hmatch Hbase. induction blobs as [|x rest IH]; intros Hin l f.
  - destruct Hin.
  - rewrite find_loop_cons, verdict_unfiltered, (cap_unbounded m) by assumption.
    destruct Hin as [-> | Hin].
    + rewrite Hmatch, Hbase. cbn [fst]. rewrite yielded_yield. now left.
    + destruct (Re.match_ pat x) as [g|]; [destruct (PyStr.startswith x base)|];
        cbn [fst]; rewrite ?yielded_yield, yielded_app, yielded_report;
        cbn [app]; try right; now apply IH.
Qed.

(** C9: on a namespace with a non-empty root prefix, [find] without
    [base_dir] asks the backend for the listing of the empty prefix and
    filters with the empty base directory: it behaves as [find] with
    [base_dir = ""], it runs its loop over that whole listing, and a
    candidate outside the root prefix that the pattern matches is yielded. *)
Theorem find_without_base_dir {B : Type} (client : StorageClient B)
    (self : GcsPipelineStorage) (b : B) (file_pattern : Re.regex)
    (progress : bool) (file_filter : option file_filter_t) (max_count : Z)
    (listing : list string) :
  _path_prefix self <> "" ->
  list_blobs client b (_bucket_name self) "" = Return listing ->
  let out := find client self b file_pattern None progress file_filter max_count in
  let run := find_loop self file_pattern "" progress file_filter max_count
                       (List.length listing) listing 0 0 in
  out = find client self b file_pattern (Some "") progress file_filter max_count
  /\ yielded (fst out) = yielded (fst run)
  /\ reported (fst out) = reported (fst run)
  /\ snd out = snd run
  /\ forall blob group,
       In blob listing ->
       PyStr.startswith blob (_path_prefix self) = false ->
       Re.match_ file_pattern blob = Some group ->
       file_filter = None -> (max_count <= 0)%Z ->
       In (blob, group) (yielded (fst out))
       \/ In (PyStr.drop 1 blob, group) (yielded (fst out)).
Proof.
  intros Hne Hlist out run.
  split; [reflexivity|].
  destruct (find_listed client self b file_pattern None progress file_filter
              max_count listing Hlist) as (Hy & Hr & Hs).
  change (PyStr.or_else None "") with "" in Hy, Hr, Hs.
  repeat (split; [assumption|]).
  intros blob group Hin Hout Hmatch Hfilter Hmax.
  pose proof (loop_yields_every_match self file_pattern "" progress max_count
                (List.length listing) blob group listing Hmax Hmatch eq_refl
                Hin 0 0) as H.
  subst out run. rewrite Hy. rewrite Hfilter.
  unfold blobname in H. rewrite Hout in H.
  destruct (PyStr.startswith blob "/"); auto.
Qed.

Lemma find_without_base_dir_witness :
  let b := Mem.of_objects "bkt" [("out/2021.json", []); ("tmp/1999.json", [])] in
  let pat := Re.Cat (Re.Star Re.AnyChar) year_json in
  _path_prefix out_storage <> ""
  /\ list_blobs Mem.client b (_bucket_name out_storage) ""
     = Return ["out/2021.json"; "tmp/1999.json"]
  /\ PyStr.startswith "tmp/1999.json" (_path_prefix out_storage) = false
  /\ In ("tmp/1999.json", [("year", Some "1999")])
        (yielded (fst (find Mem.client out_storage b pat None false None (-1)))).
Proof.
  intros b pat.
  split; [discriminate|]. split; [reflexivity|]. split; [reflexivity|].
  destruct (find_without_base_dir Mem.client out_storage b pat false None (-1)
              ["out/2021.json"; "tmp/1999.json"]
              ltac:(discriminate) eq_refl) as (_ & _ & _ & _ & H).
  destruct (H "tmp/1999.json" [("year", Some "1999")]
              ltac:(simpl; auto) eq_refl eq_refl eq_refl ltac:(lia)) as [Hin|Hin].
  - exact Hin.
  - simpl in Hin. destruct Hin as [Hin|[Hin|[]]]; discriminate Hin.
Defined.

(** ** Errors of the backend *)

(** C6: [set] never lets an exception escape, and when the write of the
    backend fails it returns normally, leaves the backend as it was and logs
    the failure; [find] whose listing fails yields nothing, logs the failure
    and raises the error of the backend to its caller. *)
Theorem set_swallows_find_raises {B : Type} (client : StorageClient B)
    (self : GcsPipelineStorage) (b : B) :
  (forall key value_ encoding,
     fst (fst (set client self b key value_ encoding)) = Return tt
     /\ forall data e,
          payload value_ encoding = Return data ->
          upload_from_string client b (_bucket_name self)
            (_keyname (_path_prefix self) key) data = Raise e ->
          set client self b key value_ encoding
          = (Return tt, b, [ErrorSetting (_keyname (_path_prefix self) key) e]))
  /\ (forall file_pattern base_dir progress file_filter max_count e,
        list_blobs client b (_bucket_name self) (PyStr.or_else base_dir "")
        = Raise e ->
        let out := find client self b file_pattern base_dir progress file_filter
                        max_count in
        snd out = Raise e
        /\ yielded (fst out) = []
        /\ In (Logged (ErrorFinding (PyStr.or_else base_dir "") file_pattern
                         file_filter e)) (fst out)).
Proof.
  split.
  - intros key value_ encoding. split.
    + unfold set. destruct value_ as [data|s]; cbn [bind].
      * now destruct (upload_from_string _ _ _ _ _).
      * destruct (Codecs.encode _ _) as [data|e]; cbn [bind]; [|reflexivity].
        now destruct (upload_from_string _ _ _ _ _).
    + intros data e Hpayload Hwrite. unfold set.
      destruct value_ as [d|s]; cbn [payload] in Hpayload.
      * injection Hpayload as ->. now rewrite Hwrite.
      * rewrite Hpayload. cbn [bind]. now rewrite Hwrite.
  - intros file_pattern base_dir progress file_filter max_count e Hlist out.
    subst out. rewrite (find_unlisted client self b file_pattern base_dir
                          progress file_filter max_count e Hlist).
    cbn [fst snd]. repeat split. simpl. auto.
Qed.

Lemma set_swallows_find_raises_witness :
  let down := {| Mem.online := false; Mem.bucket := "bkt"; Mem.created := true;
                 Mem.objects := [("out/a", [])] |} in
  payload (Str [104; 105]%N) None = Return [x68; x69]
  /\ upload_from_string Mem.client down "bkt" (_keyname "out" "a") [x68; x69]
     = Raise ServiceUnavailable
  /\ list_blobs Mem.client down "bkt" (PyStr.or_else None "")
     = Raise ServiceUnavailable
  /\ set Mem.client out_storage down "a" (Str [104; 105]%N) None
     = (Return tt, down, [ErrorSetting "out/a" ServiceUnavailable])
  /\ snd (find Mem.client out_storage down year_json None false None (-1))
     = Raise ServiceUnavailable.
Proof.
  intros down.
  destruct (set_swallows_find_raises Mem.client out_storage down) as [Hset Hfind].
  split; [reflexivity|]. split; [reflexivity|]. split; [reflexivity|]. split.
  - exact (proj2 (Hset "a" (Str [104; 105]%N) None) [x68; x69] ServiceUnavailable
             eq_refl eq_refl).
  - exact (proj1 (Hfind year_json None false None (-1)%Z ServiceUnavailable eq_refl)).
Defined.

(** ** Decoding *)

(** [get] never reads the encoding of the namespace. *)
Lemma get_encoding_irrelevant {B : Type} (client : StorageClient B)
    (self : GcsPipelineStorage) (b : B) (key : string) (as_bytes : bool)
    (encoding : option string) (other : string) :
  get client self b key as_bytes encoding
  = get client {| _connection_string := _connection_string self;
                  _bucket_name := _bucket_name self;
                  _path_prefix := _path_prefix self;
                  _encoding := other |} b key as_bytes encoding.
Proof. reflexivity. Qed.

(** C7 does not hold of the code: a namespace constructed with the default
    encoding [latin-1] holds the byte [0xE9], which is the text [U+00E9] in
    that encoding; [get] without [as_bytes] and without an encoding decodes
    with [utf-8], fails, logs and returns [None]. *)
Theorem get_decodes_utf8_not_default :
  let b := Mem.of_objects "bkt" [("out/a", [xe9])] in
  exists self,
    fst (__init__ Mem.client (Some "sa.json") "bkt" (Some "latin-1") (Some "out") b)
    = Return (self, b)
    /\ _encoding self = "latin-1"
    /\ download_as_bytes Mem.client b "bkt" (_keyname "out" "a") = Return [xe9]
    /\ Codecs.decode [xe9] (_encoding self) = Return [233%N]
    /\ get Mem.client self b "a" false None
       = (Return None, [ErrorGetting "out/a" (UnicodeDecodeError "utf-8")]).
Proof.
  intros b. eexists. split; [reflexivity|]. repeat split.
Qed.

(** ** Clearing a namespace *)

Lemma lookup_filter {V : Type} (keep : string -> bool) (name : string)
    (d : list (string * V)) :
  Re.lookup name (filter (fun o => keep (fst o)) d)
  = if keep name then Re.lookup name d else None.
Proof.
  induction d as [|[k v] d IH]; simpl.
  - now destruct (keep name).
  - destruct (String.eqb_spec k name) as [->|Hne].
    + destruct (keep name) eqn:E; simpl.
      * now rewrite String.eqb_refl.
      * rewrite IH. now rewrite ?E.
    + destruct (keep k); simpl.
      * apply String.eqb_neq in Hne. now rewrite Hne.
      * exact IH.
Qed.

Lemma has_name_In (blob : string) (objs : list (string * Codecs.bytes)) :
  Mem.has_name blob objs = true <-> In blob (map fst objs).
Proof.
  unfold Mem.has_name. rewrite existsb_exists, in_map_iff. split.
  - intros [o [Hin Heq]]. apply String.eqb_eq in Heq. eauto.
  - intros [o [Heq Hin]]. exists o. split; [assumption|].
    now apply String.eqb_eq.
Qed.

Lemma names_remove (blob : string) (objs : list (string * Codecs.bytes)) :
  forall name, In name (map fst (Mem.remove blob objs))
               <-> In name (map fst objs) /\ name <> blob.
Proof.
  intros name. unfold Mem.remove. rewrite !in_map_iff. split.
  - intros [o [Heq Hin]]. apply filter_In in Hin as [Hin Hkeep].
    apply negb_true_iff, String.eqb_neq in Hkeep. subst name. eauto.
  - intros [[o [Heq Hin]] Hne]. exists o. split; [assumption|].
    apply filter_In. split; [assumption|].
    apply negb_true_iff, String.eqb_neq. congruence.
Qed.

Lemma remove_then_filter (blob : string) (rest : list string)
    (objs : list (string * Codecs.bytes)) :
  filter (fun o => negb (listed rest (fst o))) (Mem.remove blob objs)
  = filter (fun o => negb (listed (blob :: rest) (fst o))) objs.
Proof.
  unfold Mem.remove. induction objs as [|o objs IH]; [reflexivity|].
  simpl. destruct (String.eqb (fst o) blob); simpl.
  - exact IH.
  - destruct (listed rest (fst o)); simpl; [exact IH | now rewrite IH].
Qed.

Lemma filter_all {A : Type} (l : list A) : filter (fun _ => true) l = l.
Proof. induction l as [|a l IH]; simpl; congruence. Qed.

(** The loop of [clear] on a bucket that is up: it deletes the listed
    objects and nothing else. *)
Lemma delete_each_mem (m : Mem.t) (blobs : list string) :
  Mem.online m = true -> Mem.created m = true ->
  NoDup blobs ->
  forall objs,
    (forall blob, In blob blobs -> In blob (map fst objs)) ->
    delete_each Mem.client (Mem.bucket m) blobs (Mem.with_objects m objs)
    = (Return tt,
       Mem.with_objects m (filter (fun o => negb (listed blobs (fst o))) objs)).
Proof.
  intros Hup Hmade Hnodup.
  induction Hnodup as [|blob rest Hnotin Hnodup IH]; intros objs Hall.
  - simpl. now rewrite filter_all.
  - cbn [delete_each blob_delete Mem.client]. unfold Mem.reach.
    cbn [Mem.online Mem.bucket Mem.created Mem.with_objects Mem.objects].
    rewrite Hup, Hmade, String.eqb_refl. cbn [negb orb].
    assert (Hhas : Mem.has_name blob objs = true)
      by (apply has_name_In, Hall; now left).
    rewrite Hhas.
    change (Mem.with_objects (Mem.with_objects m objs) (Mem.remove blob objs))
      with (Mem.with_objects m (Mem.remove blob objs)).
    rewrite IH.
    + now rewrite remove_then_filter.
    + intros x Hx. apply names_remove. split; [apply Hall; now right|].
      intros ->. contradiction.
Qed.

Lemma listed_filter (keep : string -> bool) (blobs : list string) (name : string) :
  In name blobs -> listed (filter keep blobs) name = keep name.
Proof.
  intros Hin. unfold listed. apply eq_true_iff_eq.
  rewrite existsb_exists. split.
  - intros [x [Hx Heq]]. apply String.eqb_eq in Heq. subst x.
    now apply filter_In in Hx.
  - intros Hkeep. exists name. split; [apply filter_In; auto|].
    apply String.eqb_refl.
Qed.

Lemma clear_mem (self : GcsPipelineStorage) (m : Mem.t) :
  Mem.online m = true -> Mem.created m = true ->
  _bucket_name self = Mem.bucket m -> NoDup (Mem.names m) ->
  clear Mem.client self m
  = (Return tt,
     Mem.with_objects m
       (filter (fun o => negb (PyStr.startswith (fst o) (_path_prefix self)))
               (Mem.objects m))).
Proof.
  intros Hup Hmade Hbucket Hnodup. unfold clear.
  cbn [list_blobs Mem.client]. unfold Mem.reach.
  rewrite Hup, Hmade, Hbucket, String.eqb_refl. cbn [negb orb].
  pose proof (delete_each_mem m
                (filter (fun blob => PyStr.startswith blob (_path_prefix self))
                        (Mem.names m))
                Hup Hmade (NoDup_filter _ Hnodup) (Mem.objects m)) as H.
  replace (Mem.with_objects m (Mem.objects m)) with m in H by now destruct m.
  rewrite H.
  - f_equal. f_equal. apply filter_ext_in. intros o Ho. f_equal.
    apply (listed_filter (fun blob => PyStr.startswith blob (_path_prefix self))
             (Mem.names m) (fst o)).
    unfold Mem.names. now apply in_map.
  - intros blob Hin. now apply filter_In in Hin.
Qed.

Lemma prefixes_apart (name p q : string) :
  PyStr.startswith q p = false -> PyStr.startswith p q = false ->
  PyStr.startswith name q = true -> PyStr.startswith name p = false.
Proof.
  intros Hqp Hpq Hq. destruct (PyStr.startswith name p) eqn:Hp; [|reflexivity].
  destruct (Nat.le_gt_cases (String.length p) (String.length q)) as [Hle|Hlt].
  - rewrite (startswith_both name p q Hp Hq Hle) in Hqp. discriminate.
  - rewrite (startswith_both name q p Hq Hp) in Hpq by lia. discriminate.
Qed.

(** C5, as stated, fails: the root prefixes ["out"] and ["output"] are
    distinct, yet clearing the first namespace deletes the object that the
    second holds under the key ["b"]. *)
Lemma clear_sibling_counterexample :
  let m := Mem.of_objects "bkt" [("out/a", []); ("output/b", [x01])] in
  let sibling := with_prefix out_storage "output" in
  _path_prefix out_storage <> _path_prefix sibling
  /\ _keyname (_path_prefix sibling) "b" = "output/b"
  /\ Re.lookup "output/b" (Mem.objects m) = Some [x01]
  /\ clear Mem.client out_storage m = (Return tt, Mem.of_objects "bkt" []).
Proof. repeat split. discriminate. Qed.

(** C5, amended: on a bucket that is up, [clear] on a namespace deletes
    exactly the objects whose address starts with the root prefix of that
    namespace, as a plain string; every object whose address starts with the
    root prefix of a sibling is left unchanged, provided neither of the two
    root prefixes is a string prefix of the other. *)
Theorem clear_own_prefix (self sibling : GcsPipelineStorage) (m : Mem.t) :
  Mem.online m = true -> Mem.created m = true ->
  _bucket_name self = Mem.bucket m -> NoDup (Mem.names m) ->
  PyStr.startswith (_path_prefix sibling) (_path_prefix self) = false ->
  PyStr.startswith (_path_prefix self) (_path_prefix sibling) = false ->
  let after := snd (clear Mem.client self m) in
  fst (clear Mem.client self m) = Return tt
  /\ (forall name,
        Re.lookup name (Mem.objects after)
        = if PyStr.startswith name (_path_prefix self) then None
          else Re.lookup name (Mem.objects m))
  /\ (forall name,
        PyStr.startswith name (_path_prefix sibling) = true ->
        Re.lookup name (Mem.objects after) = Re.lookup name (Mem.objects m)).
Proof.
  intros Hup Hmade Hbucket Hnodup Hqp Hpq after. subst after.
  rewrite (clear_mem self m Hup Hmade Hbucket Hnodup). cbn [fst snd].
  assert (Hlookup : forall name,
             Re.lookup name
               (Mem.objects
                  (Mem.with_objects m
                     (filter (fun o => negb (PyStr.startswith (fst o) (_path_prefix self)))
                             (Mem.objects m))))
             = if PyStr.startswith name (_path_prefix self) then None
               else Re.lookup name (Mem.objects m)).
  { intros name. cbn [Mem.objects Mem.with_objects].
    rewrite (lookup_filter (fun n => negb (PyStr.startswith n (_path_prefix self)))).
    now destruct (PyStr.startswith name (_path_prefix self)). }
  split; [reflexivity|]. split; [exact Hlookup|].
  intros name Hq. rewrite Hlookup.
  now rewrite (prefixes_apart name _ _ Hqp Hpq Hq).
Qed.

Lemma clear_own_prefix_witness :
  let m := Mem.of_objects "bkt" [("out/a", []); ("tmp/b", [x01]); ("out/c", [])] in
  let sibling := with_prefix out_storage "tmp" in
  Mem.online m = true /\ Mem.created m = true
  /\ _bucket_name out_storage = Mem.bucket m /\ NoDup (Mem.names m)
  /\ PyStr.startswith (_path_prefix sibling) (_path_prefix out_storage) = false
  /\ PyStr.startswith (_path_prefix out_storage) (_path_prefix sibling) = false
  /\ PyStr.startswith "tmp/b" (_path_prefix sibling) = true
  /\ Re.lookup "tmp/b" (Mem.objects (snd (clear Mem.client out_storage m)))
     = Re.lookup "tmp/b" (Mem.objects m).
Proof.
  intros m sibling.
  assert (Hnodup : NoDup (Mem.names m)).
  { repeat constructor; simpl; intuition discriminate. }
  repeat (split; [first [reflexivity | exact Hnodup]|]).
  exact (proj2 (proj2 (clear_own_prefix out_storage sibling m eq_refl eq_refl
                         eq_refl Hnodup eq_refl eq_refl)) "tmp/b" eq_refl).
Defined.

(** ** Progress reports *)

Section Reports.

Variable self : GcsPipelineStorage.
Variable pat : Re.regex.
Variable base : string.
Variable ff : option file_filter_t.
Variable max : Z.
Variable total : nat.

(** The status of a report carries the counters as they stand: the pairs
    yielded so far, and with the candidates rejected so far one candidate
    for each report so far. *)
Lemma loop_report_status (blobs : list string) :
  forall l f pre status post,
    fst (find_loop self pat base true ff max total blobs l f)
    = pre ++ Report status :: post ->
    exists nf,
      List.length (yielded pre) + nf = S (List.length (reported pre))
      /\ status = _create_progress_status (l + List.length (yielded pre))
                                          (f + nf) total.
Proof.
  induction blobs as [|blob rest IH]; intros l f pre status post H.
  - destruct pre; discriminate H.
  - rewrite find_loop_cons in H.
    destruct (verdict pat base ff blob) as [[group|]|e].
    + destruct (cap_reached max (S l)); cbn [fst report app] in H.
      * destruct pre as [|e1 [|e2 pre]]; discriminate H.
      * destruct pre as [|e1 pre]; [discriminate H|].
        injection H as He1 H. subst e1.
        destruct pre as [|e2 pre]; injection H as H1 H2.
        -- exists 0. split; [reflexivity|].
           subst status. f_equal; simpl; lia.
        -- subst e2. destruct (IH _ _ _ _ _ H2) as (nf & Hcount & ->).
           exists nf. split; [simpl; lia|]. f_equal; simpl; lia.
    + cbn [fst report app] in H.
      destruct pre as [|e1 pre]; injection H as H1 H2.
      * exists 1. split; [reflexivity|].
        subst status. f_equal; simpl; lia.
      * subst e1. destruct (IH _ _ _ _ _ H2) as (nf & Hcount & ->).
        exists (S nf). split; [simpl; lia|]. f_equal; simpl; lia.
    + destruct pre; discriminate H.
Qed.

Lemma loop_report_bound (progress : bool) (blobs : list string) :
  forall l f,
    List.length (reported (fst (find_loop self pat base progress ff max total
                                          blobs l f)))
    <= List.length blobs.
Proof.
  induction blobs as [|blob rest IH]; intros l f; [simpl; lia|].
  rewrite find_loop_cons.
  destruct (verdict pat base ff blob) as [[group|]|e].
  - destruct (cap_reached max (S l)); cbn [fst]; rewrite reported_yield.
    + simpl. lia.
    + rewrite reported_app, length_app. specialize (IH (S l) f).
      unfold report. destruct progress; simpl in *; lia.
  - cbn [fst]. rewrite reported_app, length_app. specialize (IH l (S f)).
    unfold report. destruct progress; simpl in *; lia.
  - simpl. lia.
Qed.

(** Every candidate is reported exactly when the loop runs to its end:
    neither an exception nor the cap stops it. *)
Lemma loop_report_all (blobs : list string) :
  forall l f,
    (Z.of_nat l < max \/ max <= 0)%Z ->
    let out := find_loop self pat base true ff max total blobs l f in
    List.length (reported (fst out)) = List.length blobs
    <-> snd out = Return tt
        /\ ~ (0 < max /\ Z.of_nat (l + List.length (yielded (fst out))) = max)%Z.
Proof.
  induction blobs as [|blob rest IH]; intros l f Hinv out; subst out.
  - simpl. split; [|reflexivity]. intros _. split; [reflexivity | lia].
  - rewrite find_loop_cons.
    destruct (verdict pat base ff blob) as [[group|]|e].
    + destruct (cap_reached max (S l)) eqn:Hcap; cbn [fst snd].
      * apply cap_reached_true in Hcap. simpl. split; [discriminate|].
        intros [_ Hn]. exfalso. apply Hn. lia.
      * apply cap_reached_false in Hcap.
        rewrite reported_yield, reported_report, yielded_yield, yielded_app,
          yielded_report.
        cbn [app List.length]. specialize (IH (S l) f ltac:(lia)). cbv zeta in IH.
        replace (l + S (List.length
                          (yielded (fst (find_loop self pat base true ff max total
                                                   rest (S l) f)))))
          with (S l + List.length
                        (yielded (fst (find_loop self pat base true ff max total
                                                 rest (S l) f)))) by lia.
        rewrite <- IH. split; lia.
    + cbn [fst snd]. rewrite reported_report, yielded_app, yielded_report.
      cbn [app List.length]. specialize (IH l (S f) Hinv). cbv zeta in IH.
      rewrite <- IH. split; lia.
    + cbn [fst snd]. simpl. split; [discriminate|]. intros [H _]. discriminate H.
Qed.

(** When the cap stops the loop, the last thing the caller sees is the pair
    that reached it: no report follows. *)
Lemma loop_truncated_ends (progress : bool) (blobs : list string) :
  forall l f,
    (Z.of_nat l < max)%Z ->
    let out := find_loop self pat base progress ff max total blobs l f in
    Z.of_nat (l + List.length (yielded (fst out))) = max ->
    snd out = Return tt /\ exists pre item, fst out = pre ++ [Yield item].
Proof.
  induction blobs as [|blob rest IH]; intros l f Hinv out; subst out.
  - simpl. lia.
  - rewrite find_loop_cons.
    destruct (verdict pat base ff blob) as [[group|]|e].
    + destruct (cap_reached max (S l)) eqn:Hcap; cbn [fst snd].
      * intros _. split; [reflexivity|]. exists []. eexists. reflexivity.
      * apply cap_reached_false in Hcap.
        rewrite yielded_yield, yielded_app, yielded_report.
        cbn [app List.length]. intros Hn.
        destruct (IH (S l) f ltac:(lia) ltac:(lia)) as (Hr & pre & item & Ht).
        split; [exact Hr|]. rewrite Ht.
        exists (Yield (blobname (_path_prefix self) blob, group)
                  :: report progress total (S l) f ++ pre), item.
        cbn [app]. now rewrite <- app_assoc.
    + cbn [fst snd]. rewrite yielded_app, yielded_report. cbn [app]. intros Hn.
      destruct (IH l (S f) Hinv Hn) as (Hr & pre & item & Ht).
      split; [exact Hr|]. rewrite Ht.
      exists (report progress total l (S f) ++ pre), item.
      now rewrite <- app_assoc.
    + simpl. lia.
Qed.

End Reports.


Lemma split_before_log (pre post t : list event) (status : Progress)
    (record : log_record) :
  pre ++ Report status :: post = t ++ [Logged record] ->
  exists post', t = pre ++ Report status :: post'.
Proof.
  revert t. induction pre as [|a pre IH]; intros t H.
  - destruct t as [|e t]; [discriminate H|].
    injection H as -> _. now exists t.
  - destruct t as [|e t].
    + injection H as _ H. destruct pre; discriminate H.
    + injection H as -> H. destruct (IH t H) as [post' ->]. now exists post'.
Qed.

(** ** The loop with the sink as a callable *)

Lemma find_loop_sink_cons (self : GcsPipelineStorage) (pat : Re.regex)
    (base : string) (progress : option ProgressReporter)
    (ff : option file_filter_t) (max : Z) (total : nat)
    (blob : string) (rest : list string) (l f : nat) :
  find_loop_sink self pat base progress ff max total (blob :: rest) l f =
  match verdict pat base ff blob with
  | Raise e => ([], Raise e)
  | Return (Some group) =>
      if cap_reached max (S l)
      then ([Yield (blobname (_path_prefix self) blob, group)], Return tt)
      else
        let k := sink_step progress total (S l) f
                   (find_loop_sink self pat base progress ff max total rest
                                   (S l) f) in
        (Yield (blobname (_path_prefix self) blob, group) :: fst k, snd k)
  | Return None =>
      sink_step progress total l (S f)
        (find_loop_sink self pat base progress ff max total rest l (S f))
  end.
Proof.
  unfold verdict, cap_reached, sink_step. cbn [find_loop_sink].
  destruct (Re.match_ pat blob) as [group|].
  - destruct (PyStr.startswith blob base).
    + destruct (item_filter ff group) as [[|]|e]; cbn [bind].
      * destruct (_ && _)%bool; [reflexivity|].
        destruct (find_loop_sink _ _ _ _ _ _ _ rest (S l) f) as [t r].
        destruct progress as [sink|]; [|reflexivity].
        now destruct (sink _).
      * destruct (find_loop_sink _ _ _ _ _ _ _ rest l (S f)) as [t r].
        destruct progress as [sink|]; [|reflexivity].
        now destruct (sink _).
      * reflexivity.
    + destruct (find_loop_sink _ _ _ _ _ _ _ rest l (S f)) as [t r].
      destruct progress as [sink|]; [|reflexivity].
      now destruct (sink _).
  - destruct (find_loop_sink _ _ _ _ _ _ _ rest l (S f)) as [t r].
    destruct progress as [sink|]; [|reflexivity].
    now destruct (sink _).
Qed.

(** The loop with the flag is the loop with a sink that returns. *)
Lemma loop_sink_returning (self : GcsPipelineStorage) (pat : Re.regex)
    (base : string) (sink : ProgressReporter) (ff : option file_filter_t)
    (max : Z) (total : nat) (blobs : list string) :
  (forall s, sink s = Return tt) ->
  forall l f,
    find_loop_sink self pat base (Some sink) ff max total blobs l f
    = find_loop self pat base true ff max total blobs l f.
Proof.
  intros Hsink. induction blobs as [|blob rest IH]; intros l f; [reflexivity|].
  rewrite find_loop_sink_cons, find_loop_cons.
  destruct (verdict pat base ff blob) as [[g|]|e]; [| |reflexivity].
  - destruct (cap_reached max (S l)); [reflexivity|].
    unfold sink_step. rewrite Hsink, IH. reflexivity.
  - unfold sink_step. rewrite Hsink, IH. reflexivity.
Qed.

Lemma loop_sink_none (self : GcsPipelineStorage) (pat : Re.regex)
    (base : string) (ff : option file_filter_t) (max : Z) (total : nat)
    (blobs : list string) :
  forall l f,
    find_loop_sink self pat base None ff max total blobs l f
    = find_loop self pat base false ff max total blobs l f.
Proof.
  induction blobs as [|blob rest IH]; intros l f; [reflexivity|].
  rewrite find_loop_sink_cons, find_loop_cons.
  destruct (verdict pat base ff blob) as [[g|]|e]; [| |reflexivity].
  - destruct (cap_reached max (S l)); [reflexivity|].
    unfold sink_step. rewrite IH. reflexivity.
  - unfold sink_step. rewrite IH.
    now destruct (find_loop self pat base false ff max total rest l (S f)).
Qed.

(** So what is proved of [find] with the flag set holds of [find] with any
    sink that returns, and with the flag unset of [find] without a sink. *)
Lemma find_sink_returning {B : Type} (client : StorageClient B)
    (self : GcsPipelineStorage) (b : B) (file_pattern : Re.regex)
    (base_dir : option string) (sink : ProgressReporter)
    (file_filter : option file_filter_t) (max_count : Z) :
  (forall s, sink s = Return tt) ->
  find_sink client self b file_pattern base_dir (Some sink) file_filter max_count
  = find client self b file_pattern base_dir true file_filter max_count.
Proof.
  intros Hsink. unfold find_sink, find.
  destruct (list_blobs client b (_bucket_name self) (PyStr.or_else base_dir ""));
    [|reflexivity].
  now rewrite loop_sink_returning.
Qed.

Lemma find_sink_none {B : Type} (client : StorageClient B)
    (self : GcsPipelineStorage) (b : B) (file_pattern : Re.regex)
    (base_dir : option string) (file_filter : option file_filter_t)
    (max_count : Z) :
  find_sink client self b file_pattern base_dir None file_filter max_count
  = find client self b file_pattern base_dir false file_filter max_count.
Proof.
  unfold find_sink, find.
  destruct (list_blobs client b (_bucket_name self) (PyStr.or_else base_dir ""));
    [|reflexivity].
  now rewrite loop_sink_none.
Qed.

Section SinkReports.

Variable self : GcsPipelineStorage.
Variable pat : Re.regex.
Variable base : string.
Variable sink : ProgressReporter.
Variable ff : option file_filter_t.
Variable max : Z.
Variable total : nat.

(** The status of a call carries the counters as they stand. *)
Lemma loop_sink_status (blobs : list string) :
  forall l f pre status post,
    fst (find_loop_sink self pat base (Some sink) ff max total blobs l f)
    = pre ++ Report status :: post ->
    exists nf,
      List.length (yielded pre) + nf = S (List.length (reported pre))
      /\ status = _create_progress_status (l + List.length (yielded pre))
                                          (f + nf) total.
Proof.
  induction blobs as [|blob rest IH]; intros l f pre status post H.
  - destruct pre; discriminate H.
  - rewrite find_loop_sink_cons in H.
    destruct (verdict pat base ff blob) as [[group|]|e].
    + destruct (cap_reached max (S l)).
      * cbn [fst] in H. destruct pre as [|e1 [|e2 pre]]; discriminate H.
      * cbv zeta in H. unfold sink_step in H.
        destruct (sink (_create_progress_status (S l) f total)) as [u|e];
          cbn [fst] in H.
        -- destruct pre as [|e1 pre]; [discriminate H|].
           injection H as He1 H. subst e1.
           destruct pre as [|e2 pre]; injection H as H1 H2.
           ++ exists 0. split; [reflexivity|].
              subst status. f_equal; simpl; lia.
           ++ subst e2. destruct (IH _ _ _ _ _ H2) as (nf & Hcount & ->).
              exists nf. split; [simpl; lia|]. f_equal; simpl; lia.
        -- destruct pre as [|e1 pre]; [discriminate H|].
           injection H as He1 H. subst e1.
           destruct pre as [|e2 pre]; injection H as H1 H2.
           ++ exists 0. split; [reflexivity|].
              subst status. f_equal; simpl; lia.
           ++ destruct pre; discriminate H2.
    + unfold sink_step in H.
      destruct (sink (_create_progress_status l (S f) total)) as [u|e];
        cbn [fst] in H.
      * destruct pre as [|e1 pre]; injection H as H1 H2.
        -- exists 1. split; [reflexivity|].
           subst status. f_equal; simpl; lia.
        -- subst e1. destruct (IH _ _ _ _ _ H2) as (nf & Hcount & ->).
           exists (S nf). split; [simpl; lia|]. f_equal; simpl; lia.
      * destruct pre as [|e1 pre]; injection H as H1 H2.
        -- exists 1. split; [reflexivity|].
           subst status. f_equal; simpl; lia.
        -- destruct pre; discriminate H2.
    + destruct pre; discriminate H.
Qed.

Lemma loop_sink_bound (blobs : list string) :
  forall l f,
    List.length (reported (fst (find_loop_sink self pat base (Some sink) ff
                                               max total blobs l f)))
    <= List.length blobs.
Proof.
  induction blobs as [|blob rest IH]; intros l f; [simpl; lia|].
  rewrite find_loop_sink_cons.
  destruct (verdict pat base ff blob) as [[group|]|e].
  - destruct (cap_reached max (S l)); [simpl; lia|].
    cbv zeta. unfold sink_step. specialize (IH (S l) f).
    destruct (sink _); cbn [fst]; rewrite reported_yield; simpl in *; lia.
  - unfold sink_step. specialize (IH l (S f)).
    destruct (sink _); cbn [fst]; simpl in *; lia.
  - simpl. lia.
Qed.

(** When the cap stops the loop, the last thing the caller sees is the pair
    that reached it. *)
Lemma loop_sink_truncated_ends (blobs : list string) :
  forall l f,
    (Z.of_nat l < max)%Z ->
    let out := find_loop_sink self pat base (Some sink) ff max total blobs l f in
    Z.of_nat (l + List.length (yielded (fst out))) = max ->
    snd out = Return tt /\ exists pre item, fst out = pre ++ [Yield item].
Proof.
  induction blobs as [|blob rest IH]; intros l f Hinv out; subst out.
  - simpl. lia.
  - rewrite find_loop_sink_cons.
    destruct (verdict pat base ff blob) as [[group|]|e].
    + destruct (cap_reached max (S l)) eqn:Hcap.
      * intros _. split; [reflexivity|]. exists []. eexists. reflexivity.
      * apply cap_reached_false in Hcap. cbv zeta. unfold sink_step.
        destruct (sink _) as [u|e]; cbn [fst snd]; rewrite yielded_yield;
          cbn [List.length].
        -- change (yielded (Report (_create_progress_status (S l) f total)
                              :: fst (find_loop_sink self pat base (Some sink)
                                        ff max total rest (S l) f)))
             with (yielded (fst (find_loop_sink self pat base (Some sink) ff
                                                max total rest (S l) f))).
           intros Hn.
           destruct (IH (S l) f ltac:(lia) ltac:(lia)) as (Hr & pre & item & Ht).
           split; [exact Hr|]. rewrite Ht.
           exists (Yield (blobname (_path_prefix self) blob, group)
                     :: Report (_create_progress_status (S l) f total) :: pre),
                  item.
           reflexivity.
        -- simpl. lia.
    + unfold sink_step. destruct (sink _) as [u|e]; cbn [fst snd].
      * change (yielded (Report (_create_progress_status l (S f) total)
                           :: fst (find_loop_sink self pat base (Some sink)
                                     ff max total rest l (S f))))
          with (yielded (fst (find_loop_sink self pat base (Some sink) ff
                                             max total rest l (S f)))).
        intros Hn.
        destruct (IH l (S f) Hinv Hn) as (Hr & pre & item & Ht).
        split; [exact Hr|]. rewrite Ht.
        exists (Report (_create_progress_status l (S f) total) :: pre), item.
        reflexivity.
      * simpl. lia.
    + simpl. lia.
Qed.

End SinkReports.

(** ** Which candidates are reported *)

Lemma statuses_from_closed (pat : Re.regex) (base : string)
    (ff : option file_filter_t) (total : nat) (done : list string) :
  forall l f,
    statuses_from pat base ff total l f done
    = map (fun i =>
             _create_progress_status
               (l + List.length (filter (accepts pat base ff) (firstn i done)))
               (f + List.length
                      (filter (fun x => negb (accepts pat base ff x))
                              (firstn i done)))
               total)
          (seq 1 (List.length done)).
Proof.
  induction done as [|x done IH]; intros l f; [reflexivity|].
  cbn [statuses_from List.length seq map firstn filter].
  rewrite <- seq_shift, map_map.
  destruct (accepts pat base ff x) eqn:E; cbn [negb List.length].
  - f_equal; [f_equal; lia|]. rewrite IH. apply map_ext. intros i.
    cbn [firstn filter]. rewrite E. cbn [negb List.length]. f_equal; lia.
  - f_equal; [f_equal; lia|]. rewrite IH. apply map_ext. intros i.
    cbn [firstn filter]. rewrite E. cbn [negb List.length]. f_equal; lia.
Qed.

Lemma statuses_from_zero (pat : Re.regex) (base : string)
    (ff : option file_filter_t) (total : nat) (done : list string) :
  statuses_from pat base ff total 0 0 done = statuses pat base ff total done.
Proof. now rewrite statuses_from_closed. Qed.

Lemma statuses_length (pat : Re.regex) (base : string)
    (ff : option file_filter_t) (total : nat) (done : list string) :
  List.length (statuses pat base ff total done) = List.length done.
Proof. unfold statuses. now rewrite length_map, length_seq. Qed.

Lemma firstn_exact {A : Type} (a b : list A) :
  firstn (List.length a) (a ++ b) = a.
Proof.
  induction a as [|x a IH]; [reflexivity|]. simpl. now rewrite IH.
Qed.

Lemma accepts_verdict (pat : Re.regex) (base : string)
    (ff : option file_filter_t) (x : string) :
  (forall g, verdict pat base ff x = Return (Some g) -> accepts pat base ff x = true)
  /\ (verdict pat base ff x = Return None -> accepts pat base ff x = false).
Proof. unfold accepts. split; [intros g ->|intros ->]; reflexivity. Qed.

(** The loop over candidates that it finishes with, with a sink that
    returns on their statuses: one report for each, then the rest of the
    loop with the counters moved on. *)
Lemma loop_sink_prefix (self : GcsPipelineStorage) (pat : Re.regex)
    (base : string) (sink : ProgressReporter) (ff : option file_filter_t)
    (max : Z) (total : nat) (done : list string) :
  forall l f rest,
    (forall x, In x done -> raises (verdict pat base ff x) = false) ->
    (max <= 0
     \/ Z.of_nat (l + List.length (filter (accepts pat base ff) done)) < max)%Z ->
    (forall s, In s (statuses_from pat base ff total l f done) ->
               sink s = Return tt) ->
    exists trace,
      find_loop_sink self pat base (Some sink) ff max total (done ++ rest) l f
      = (trace
           ++ fst (find_loop_sink self pat base (Some sink) ff max total rest
                     (l + List.length (filter (accepts pat base ff) done))
                     (f + List.length
                            (filter (fun x => negb (accepts pat base ff x))
                                    done))),
         snd (find_loop_sink self pat base (Some sink) ff max total rest
                (l + List.length (filter (accepts pat base ff) done))
                (f + List.length
                       (filter (fun x => negb (accepts pat base ff x)) done))))
      /\ reported trace = statuses_from pat base ff total l f done.
Proof.
  induction done as [|x done IH]; intros l f rest Hok Hcap Hsink.
  - exists []. cbn [app filter List.length]. rewrite !Nat.add_0_r.
    split; [|reflexivity].
    now destruct (find_loop_sink self pat base (Some sink) ff max total rest l f).
  - cbn [app]. rewrite find_loop_sink_cons.
    pose proof (Hok x (or_introl eq_refl)) as Hx.
    assert (Hrest : forall y, In y done -> raises (verdict pat base ff y) = false)
      by (intros y Hy; apply Hok; now right).
    destruct (accepts_verdict pat base ff x) as [Hyes Hno].
    cbn [statuses_from filter] in Hsink, Hcap |- *.
    destruct (verdict pat base ff x) as [[g|]|e]; [| |discriminate Hx].
    + rewrite (Hyes g eq_refl) in Hsink, Hcap |- *.
      cbn [negb List.length] in Hcap |- *.
      assert (Hgo : cap_reached max (S l) = false)
        by (apply cap_reached_false; lia).
      rewrite Hgo. cbv zeta. unfold sink_step.
      rewrite (Hsink _ (or_introl eq_refl)).
      destruct (IH (S l) f rest Hrest ltac:(lia)
                  (fun s Hs => Hsink s (or_intror Hs)))
        as (trace & Hrun & Hrep).
      rewrite Hrun. cbn [fst snd].
      exists (Yield (blobname (_path_prefix self) x, g)
                :: Report (_create_progress_status (S l) f total) :: trace).
      rewrite <- !Nat.add_succ_comm. split; [reflexivity|].
      rewrite reported_yield.
      change (reported (Report (_create_progress_status (S l) f total) :: trace))
        with (_create_progress_status (S l) f total :: reported trace).
      now rewrite Hrep.
    + rewrite (Hno eq_refl) in Hsink, Hcap |- *.
      cbn [negb List.length] in Hcap |- *.
      unfold sink_step. rewrite (Hsink _ (or_introl eq_refl)).
      destruct (IH l (S f) rest Hrest Hcap
                  (fun s Hs => Hsink s (or_intror Hs)))
        as (trace & Hrun & Hrep).
      rewrite Hrun. cbn [fst snd].
      exists (Report (_create_progress_status l (S f) total) :: trace).
      rewrite <- !Nat.add_succ_comm. split; [reflexivity|].
      change (reported (Report (_create_progress_status l (S f) total) :: trace))
        with (_create_progress_status l (S f) total :: reported trace).
      now rewrite Hrep.
Qed.

(** The whole trace of [find_sink] over a listing. *)
Lemma find_sink_listed {B : Type} (client : StorageClient B)
    (self : GcsPipelineStorage) (b : B) (file_pattern : Re.regex)
    (base_dir : option string) (progress : option ProgressReporter)
    (file_filter : option file_filter_t) (max_count : Z)
    (all_blobs : list string) :
  let base := PyStr.or_else base_dir "" in
  list_blobs client b (_bucket_name self) base = Return all_blobs ->
  let run := find_loop_sink self file_pattern base progress file_filter
                            max_count (List.length all_blobs) all_blobs 0 0 in
  let out := find_sink client self b file_pattern base_dir progress
                       file_filter max_count in
  out = (Logged (InfoSearch (_bucket_name self) file_pattern)
           :: fst run
           ++ match snd run with
              | Raise e => [Logged (ErrorFinding base file_pattern file_filter e)]
              | Return _ => []
              end,
         snd run)
  /\ yielded (fst out) = yielded (fst run)
  /\ reported (fst out) = reported (fst run)
  /\ snd out = snd run.
Proof.
  intros base H run out. subst out. unfold find_sink. fold base. rewrite H.
  fold run. destruct run as [trace [[]|e]]; cbn [fst snd].
  - rewrite app_nil_r. repeat split.
  - split; [reflexivity|].
    change (yielded (Logged (InfoSearch (_bucket_name self) file_pattern)
                       :: trace ++ [Logged (ErrorFinding base file_pattern
                                                         file_filter e)]))
      with (yielded (trace ++ [Logged (ErrorFinding base file_pattern
                                                    file_filter e)])).
    change (reported (Logged (InfoSearch (_bucket_name self) file_pattern)
                        :: trace ++ [Logged (ErrorFinding base file_pattern
                                                          file_filter e)]))
      with (reported (trace ++ [Logged (ErrorFinding base file_pattern
                                                     file_filter e)])).
    rewrite yielded_app, reported_app. simpl. now rewrite !app_nil_r.
Qed.

Lemma status_after_snoc (pat : Re.regex) (base : string)
    (ff : option file_filter_t) (total : nat) (done : list string)
    (blob : string) :
  status_after pat base ff total (done ++ [blob])
  = if accepts pat base ff blob
    then _create_progress_status
           (S (List.length (filter (accepts pat base ff) done)))
           (List.length (filter (fun x => negb (accepts pat base ff x)) done))
           total
    else _create_progress_status
           (List.length (filter (accepts pat base ff) done))
           (S (List.length (filter (fun x => negb (accepts pat base ff x)) done)))
           total.
Proof.
  unfold status_after. rewrite !filter_app, !length_app. cbn [filter].
  destruct (accepts pat base ff blob); cbn [negb List.length]; f_equal; lia.
Qed.

(** The reports of the loop from its start, by where it ends. *)
Lemma loop_sink_reports (self : GcsPipelineStorage) (pat : Re.regex)
    (base : string) (sink : ProgressReporter) (ff : option file_filter_t)
    (max : Z) (total : nat) (done rest : list string) :
  finishes pat base ff max done ->
  (forall s, In s (statuses pat base ff total done) -> sink s = Return tt) ->
  let out := find_loop_sink self pat base (Some sink) ff max total
                            (done ++ rest) 0 0 in
  firstn (List.length done) (reported (fst out)) = statuses pat base ff total done
  /\ (rest = [] ->
      reported (fst out) = statuses pat base ff total done
      /\ snd out = Return tt)
  /\ (forall blob after,
        rest = blob :: after -> stops pat base ff max done blob ->
        reported (fst out) = statuses pat base ff total done)
  /\ (forall blob after e,
        rest = blob :: after -> finishes pat base ff max (done ++ [blob]) ->
        sink (status_after pat base ff total (done ++ [blob])) = Raise e ->
        reported (fst out)
        = statuses pat base ff total done
            ++ [status_after pat base ff total (done ++ [blob])]
        /\ snd out = Raise e).
Proof.
  intros [Hok Hcap] Hsink out. subst out.
  rewrite <- statuses_from_zero in Hsink.
  destruct (loop_sink_prefix self pat base sink ff max total done 0 0 rest
              Hok Hcap Hsink) as (trace & -> & Hrep).
  rewrite statuses_from_zero in Hrep.
  cbn [fst snd Nat.add]. rewrite reported_app, Hrep.
  set (A := List.length (filter (accepts pat base ff) done)) in *.
  set (R := List.length (filter (fun x => negb (accepts pat base ff x)) done)).
  split; [|split; [|split]].
  - rewrite <- (statuses_length pat base ff total done) at 1. apply firstn_exact.
  - intros ->. cbn [find_loop_sink fst snd reported flat_map].
    now rewrite app_nil_r.
  - intros blob after -> [Hraise | [Hacc Hreach]]; rewrite find_loop_sink_cons.
    + destruct (verdict pat base ff blob) as [v|e]; [discriminate Hraise|].
      cbn [fst reported flat_map]. now rewrite app_nil_r.
    + unfold accepts in Hacc.
      destruct (verdict pat base ff blob) as [[g|]|e]; try discriminate Hacc.
      fold A in Hreach. rewrite Hreach.
      cbn [fst reported flat_map app]. now rewrite app_nil_r.
  - intros blob after e -> [Hok' Hcap'] Hraise.
    rewrite status_after_snoc in Hraise |- *. fold A R in Hraise |- *.
    rewrite filter_app, length_app in Hcap'. cbn [filter] in Hcap'.
    fold A in Hcap'.
    pose proof (Hok' blob ltac:(apply in_or_app; right; now left)) as Hblob.
    rewrite find_loop_sink_cons.
    destruct (accepts_verdict pat base ff blob) as [Hyes Hno].
    destruct (verdict pat base ff blob) as [[g|]|e']; [| |discriminate Hblob].
    + rewrite (Hyes g eq_refl) in Hraise, Hcap' |- *.
      cbn [List.length] in Hcap'.
      assert (Hgo : cap_reached max (S A) = false)
        by (apply cap_reached_false; lia).
      rewrite Hgo. cbv zeta. unfold sink_step. rewrite Hraise.
      cbn [fst snd]. split; reflexivity.
    + rewrite (Hno eq_refl) in Hraise |- *.
      unfold sink_step. rewrite Hraise. cbn [fst snd]. split; reflexivity.
Qed.

(** C4, as stated, fails.  With [max_count = 1] the only candidate is
    evaluated and yielded, and the sink is never called.  Without a cap, a
    filter on a field that the pattern does not capture raises on the first
    candidate: nothing is truncated, yet the sink is called fewer times than
    there are candidates. *)
Lemma find_progress_counterexample :
  let b := Mem.of_objects "bkt" [("out/2021.json", [])] in
  let pat := Re.Cat (Re.lit "out/") year_json in
  let sink : ProgressReporter := fun _ => Return tt in
  let capped := find_sink Mem.client out_storage b pat None (Some sink) None 1 in
  let failed := find_sink Mem.client out_storage out_bucket pat None (Some sink)
                          (Some [("month", Re.Star Re.AnyChar)]) (-1) in
  (list_blobs Mem.client b "bkt" "" = Return ["out/2021.json"]
   /\ yielded (fst capped) = [("2021.json", [("year", Some "2021")])]
   /\ reported (fst capped) = []
   /\ snd capped = Return tt)
  /\ (list_blobs Mem.client out_bucket "bkt" "" = Return out_listing
      /\ ~ truncated (-1) (fst failed)
      /\ List.length (reported (fst failed)) <> List.length out_listing).
Proof.
  repeat split; try discriminate.
  intros [H _]. discriminate H.
Qed.

(** C4, amended.  When a progress sink is supplied, it is called after
    each candidate that the loop finishes with, in the order of the listing:
    every candidate evaluated, matched or not, but the one at which
    [max_count] is reached (the loop breaks right after yielding it, before
    the call) and one on which the filter raises.  The call for a candidate
    carries the pairs yielded so far as loaded and the candidates rejected
    so far as filtered, so [completed] is their sum, the number of the call,
    and [total] is the size of the listing.  A call that raises is the last:
    [find] ends with its exception.  So the sink is called at most once per
    candidate; and a sink that returns is called once per candidate exactly
    when the enumeration ends with neither a truncation nor an exception. *)
Theorem find_progress_reports {B : Type} (client : StorageClient B)
    (self : GcsPipelineStorage) (b : B) (file_pattern : Re.regex)
    (base_dir : option string) (sink : ProgressReporter)
    (file_filter : option file_filter_t) (max_count : Z)
    (listing : list string) :
  let base := PyStr.or_else base_dir "" in
  list_blobs client b (_bucket_name self) base = Return listing ->
  let out := find_sink client self b file_pattern base_dir (Some sink)
                       file_filter max_count in
  let total := List.length listing in
  (forall pre status post,
     fst out = pre ++ Report status :: post ->
     exists num_filtered,
       List.length (yielded pre) + num_filtered = S (List.length (reported pre))
       /\ status = _create_progress_status (List.length (yielded pre))
                     num_filtered total
       /\ completed_items status = S (List.length (reported pre))
       /\ total_items status = total)
  /\ List.length (reported (fst out)) <= total
  /\ (forall done rest,
        listing = done ++ rest ->
        finishes file_pattern base file_filter max_count done ->
        (forall s, In s (statuses file_pattern base file_filter total done) ->
                   sink s = Return tt) ->
        firstn (List.length done) (reported (fst out))
        = statuses file_pattern base file_filter total done
        /\ (rest = [] ->
            reported (fst out)
            = statuses file_pattern base file_filter total done
            /\ snd out = Return tt)
        /\ (forall blob after,
              rest = blob :: after ->
              stops file_pattern base file_filter max_count done blob ->
              reported (fst out)
              = statuses file_pattern base file_filter total done)
        /\ (forall blob after e,
              rest = blob :: after ->
              finishes file_pattern base file_filter max_count (done ++ [blob]) ->
              sink (status_after file_pattern base file_filter total
                                 (done ++ [blob])) = Raise e ->
              reported (fst out)
              = statuses file_pattern base file_filter total done
                  ++ [status_after file_pattern base file_filter total
                                   (done ++ [blob])]
              /\ snd out = Raise e))
  /\ ((forall s, sink s = Return tt) ->
      (List.length (reported (fst out)) = total
       <-> snd out = Return tt /\ ~ truncated max_count (fst out)))
  /\ (truncated max_count (fst out) ->
      snd out = Return tt /\ exists pre item, fst out = pre ++ [Yield item]).
Proof.
  intros base Hlist out total.
  destruct (find_sink_listed client self b file_pattern base_dir (Some sink)
              file_filter max_count listing Hlist) as (Htrace & Hy & Hr & Hs).
  fold out in Htrace, Hy, Hr, Hs. fold base in Htrace, Hy, Hr, Hs.
  fold total in Htrace, Hy, Hr, Hs.
  set (run := find_loop_sink self file_pattern base (Some sink) file_filter
                             max_count total listing 0 0) in *.
  split; [|split; [|split; [|split]]].
  - intros pre status post H. rewrite Htrace in H. cbn [fst] in H.
    destruct pre as [|info pre]; [discriminate H|].
    injection H as Hinfo H. subst info.
    assert (Hloop : exists post', fst run = pre ++ Report status :: post').
    { destruct (snd run) as [u|e].
      - rewrite app_nil_r in H. now exists post.
      - symmetry in H. now apply split_before_log in H. }
    destruct Hloop as [post' Hloop].
    destruct (loop_sink_status self file_pattern base sink file_filter max_count
                total listing 0 0 pre status post' Hloop)
      as (nf & Hcount & ->).
    exists nf. cbn [yielded reported flat_map app].
    fold (yielded pre). fold (reported pre).
    repeat split; simpl; lia.
  - rewrite Hr. apply loop_sink_bound.
  - intros done rest Hsplit Hfin Hsink. rewrite Hr, Hs.
    pose proof (loop_sink_reports self file_pattern base sink file_filter
                  max_count total done rest Hfin Hsink) as H.
    cbv zeta in H. rewrite <- Hsplit in H. exact H.
  - intros Hsink. rewrite Hr, Hs. unfold truncated. rewrite Hy. unfold run.
    rewrite (loop_sink_returning self file_pattern base sink file_filter
               max_count total listing Hsink 0 0).
    pose proof (loop_report_all self file_pattern base file_filter max_count
                  total listing 0 0) as H.
    cbv zeta in H. simpl in H.
    apply H. destruct (Z.lt_ge_cases 0 max_count); [left | right]; lia.
  - unfold truncated. rewrite Hy. intros [Hpos Hn].
    destruct (loop_sink_truncated_ends self file_pattern base sink file_filter
                max_count total listing 0 0 Hpos Hn)
      as (Hret & pre & item & Hpre).
    fold run in Hret, Hpre.
    split; [now rewrite Hs|].
    rewrite Htrace. cbn [fst]. rewrite Hret, Hpre, app_nil_r.
    now exists (Logged (InfoSearch (_bucket_name self) file_pattern) :: pre), item.
Qed.

Lemma find_progress_reports_witness :
  let m := Mem.of_objects "bkt" [("out/a1", []); ("out/b", []); ("out/a2", [])] in
  let listing := ["out/a1"; "out/b"; "out/a2"] in
  let pat := Re.Cat (Re.lit "out/a") (Re.Named "n" Re.Digit) in
  let quiet : ProgressReporter := fun _ => Return tt in
  let loud : ProgressReporter :=
    fun status => if Nat.eqb (completed_items status) 2
                  then Raise (ValueError "stop") else Return tt in
  let capped := find_sink Mem.client out_storage m pat None (Some quiet) None 2 in
  let broken := find_sink Mem.client out_storage m pat None (Some loud) None (-1) in
  list_blobs Mem.client m (_bucket_name out_storage) (PyStr.or_else None "")
  = Return listing
  /\ finishes pat "" None 2 ["out/a1"; "out/b"]
  /\ stops pat "" None 2 ["out/a1"; "out/b"] "out/a2"
  /\ reported (fst capped)
     = [_create_progress_status 1 0 3; _create_progress_status 1 1 3]
  /\ finishes pat "" None (-1) ["out/a1"; "out/b"]
  /\ loud (status_after pat "" None 3 ["out/a1"; "out/b"])
     = Raise (ValueError "stop")
  /\ reported (fst broken)
     = [_create_progress_status 1 0 3; _create_progress_status 1 1 3]
  /\ snd broken = Raise (ValueError "stop").
Proof.
  intros m listing pat quiet loud capped broken.
  assert (Hfin : forall max, (max <= 0 \/ 1 < max)%Z ->
                             finishes pat "" None max ["out/a1"; "out/b"]).
  { intros max Hmax. split.
    - intros x [<-|[<-|[]]]; reflexivity.
    - exact Hmax. }
  assert (Hstop : stops pat "" None 2 ["out/a1"; "out/b"] "out/a2")
    by (right; split; reflexivity).
  destruct (find_progress_reports Mem.client out_storage m pat None quiet None 2
              listing eq_refl) as (_ & _ & Hcap & _).
  destruct (Hcap ["out/a1"; "out/b"] ["out/a2"] eq_refl (Hfin 2%Z ltac:(lia))
              ltac:(intros s _; reflexivity)) as (_ & _ & Hcut & _).
  destruct (find_progress_reports Mem.client out_storage m pat None loud None (-1)
              listing eq_refl) as (_ & _ & Hloud & _).
  assert (Hfin1 : finishes pat "" None (-1) ["out/a1"]).
  { split; [intros x [<-|[]]; reflexivity | left; lia]. }
  destruct (Hloud ["out/a1"] ["out/b"; "out/a2"] eq_refl Hfin1
              ltac:(intros s [<-|[]]; reflexivity)) as (_ & _ & _ & Hraise).
  destruct (Hraise "out/b" ["out/a2"] (ValueError "stop") eq_refl
              (Hfin (-1)%Z ltac:(lia)) eq_refl) as [Hrep Hend].
  split; [reflexivity|]. split; [exact (Hfin 2%Z ltac:(lia))|].
  split; [exact Hstop|].
  split; [exact (Hcut "out/a2" [] eq_refl Hstop)|].
  split; [exact (Hfin (-1)%Z ltac:(lia))|]. split; [reflexivity|].
  split; [exact Hrep | exact Hend].
Defined.

(** ** The field filter *)



Lemma verdict_accepted (pat : Re.regex) (base : string)
    (ff : option file_filter_t) (blob : string) (group : Re.groupdict) :
  verdict pat base ff blob = Return (Some group) ->
  Re.match_ pat blob = Some group
  /\ PyStr.startswith blob base = true
  /\ item_filter ff group = Return true.
Proof.
  unfold verdict. destruct (Re.match_ pat blob) as [g|]; [|discriminate].
  destruct (PyStr.startswith blob base); [|discriminate].
  destruct (item_filter ff g) as [[|]|e] eqn:Hf; cbn [bind]; try discriminate.
  intros H. injection H as ->. auto.
Qed.

Lemma loop_yield_sound (self : GcsPipelineStorage) (pat : Re.regex)
    (base : string) (progress : bool) (ff : option file_filter_t) (max : Z)
    (total : nat) (key : string) (group : Re.groupdict) (blobs : list string) :
  forall l f,
    In (key, group)
       (yielded (fst (find_loop self pat base progress ff max total blobs l f))) ->
    exists blob, In blob blobs
                 /\ key = blobname (_path_prefix self) blob
                 /\ verdict pat base ff blob = Return (Some group).
Proof.
  induction blobs as [|blob rest IH]; intros l f H; [destruct H|].
  rewrite find_loop_cons in H.
  destruct (verdict pat base ff blob) as [[g|]|e] eqn:Hv.
  - assert (Hhere : (key, group) = (blobname (_path_prefix self) blob, g) ->
                    exists x, In x (blob :: rest)
                              /\ key = blobname (_path_prefix self) x
                              /\ verdict pat base ff x = Return (Some group)).
    { intros E. injection E as -> ->. exists blob. split; [now left | auto]. }
    destruct (cap_reached max (S l)); cbn [fst] in H; rewrite yielded_yield in H.
    + destruct H as [E|[]]. now apply Hhere.
    + rewrite yielded_app, yielded_report in H. cbn [app] in H.
      destruct H as [E|H]; [now apply Hhere|].
      destruct (IH _ _ H) as (x & Hin & Hx). exists x. split; [now right | exact Hx].
  - cbn [fst] in H. rewrite yielded_app, yielded_report in H. cbn [app] in H.
    destruct (IH _ _ H) as (x & Hin & Hx). exists x. split; [now right | exact Hx].
  - destruct H.
Qed.








(* ================================================================== *)
(** * Further properties *)

(** ** Normal form of addresses *)

Lemma split_not_nil (s : string) : PyStr.split s PurePosixPath.sep <> [].
Proof.
  induction s as [|c s IH]; simpl; [discriminate|].
  destruct (Ascii.eqb c PurePosixPath.sep); [discriminate|].
  destruct (PyStr.split s PurePosixPath.sep); [contradiction | discriminate].
Qed.

Lemma split_no_sep (s : string) :
  Forall (fun x => has_sep x = false) (PyStr.split s PurePosixPath.sep).
Proof.
  induction s as [|c s IH]; simpl.
  - constructor; [reflexivity | constructor].
  - destruct (Ascii.eqb c PurePosixPath.sep) eqn:E.
    + constructor; [reflexivity | exact IH].
    + destruct (PyStr.split s PurePosixPath.sep) as [|x xs].
      * constructor; [simpl; now rewrite E | constructor].
      * inversion IH as [|? ? Hx Hxs]; subst.
        constructor; [simpl; now rewrite E, Hx | exact Hxs].
Qed.

Lemma split_plain (x : string) :
  has_sep x = false -> PyStr.split x PurePosixPath.sep = [x].
Proof.
  induction x as [|c x IH]; intros H; [reflexivity|].
  cbn [has_sep] in H. apply orb_false_iff in H as [Hc Hx].
  cbn [PyStr.split]. rewrite Hc, (IH Hx). reflexivity.
Qed.

(** [(a + "/" + b).split("/") == a.split("/") + b.split("/")] *)
Lemma split_append_sep (a b : string) :
  PyStr.split (a ^^ String PurePosixPath.sep b) PurePosixPath.sep
  = PyStr.split a PurePosixPath.sep ++ PyStr.split b PurePosixPath.sep.
Proof.
  induction a as [|c a IH].
  - simpl. reflexivity.
  - cbn [String.append PyStr.split]. rewrite IH.
    destruct (Ascii.eqb c PurePosixPath.sep); [reflexivity|].
    pose proof (split_not_nil a) as Hne.
    destruct (PyStr.split a PurePosixPath.sep); [contradiction | reflexivity].
Qed.

Lemma split_join (parts : list string) :
  parts <> [] -> Forall (fun x => has_sep x = false) parts ->
  PyStr.split (PyStr.join "/" parts) PurePosixPath.sep = parts.
Proof.
  intros Hne Hall. induction Hall as [|x l Hx Hl IH]; [congruence|].
  destruct l as [|y l].
  - simpl. now apply split_plain.
  - rewrite join_cons by discriminate.
    change (x ^^ "/" ^^ PyStr.join "/" (y :: l))
      with (x ^^ String PurePosixPath.sep (PyStr.join "/" (y :: l))).
    rewrite split_append_sep, (split_plain x Hx), IH by discriminate.
    reflexivity.
Qed.

Lemma filter_good (parts : list string) :
  Forall good_part parts -> filter PurePosixPath.is_component parts = parts.
Proof.
  induction 1 as [|x l [Hx _] _ IH]; [reflexivity|].
  simpl. now rewrite Hx, IH.
Qed.

Lemma good_no_sep (parts : list string) :
  Forall good_part parts -> Forall (fun x => has_sep x = false) parts.
Proof. apply Forall_impl. now intros x [_ H]. Qed.

(** The joined parts of a parsed path do not start with a separator. *)
Lemma join_good_start (parts : list string) :
  Forall good_part parts -> PyStr.startswith (PyStr.join "/" parts) "/" = false.
Proof.
  intros H. destruct H as [|x l [Hcomp Hsep] Hl]; [reflexivity|].
  destruct x as [|c x]; [discriminate Hcomp|].
  cbn [has_sep] in Hsep. apply orb_false_iff in Hsep as [Hc _].
  unfold PurePosixPath.sep in Hc. unfold PyStr.join.
  destruct l; cbn [String.concat String.append PyStr.startswith];
    now rewrite Hc.
Qed.

Lemma lstrip_relative (s : string) :
  PyStr.startswith s "/" = false -> PyStr.lstrip s PurePosixPath.sep = s.
Proof.
  destruct s as [|c s]; [reflexivity|].
  cbn [PyStr.startswith PyStr.lstrip]. rewrite andb_true_r.
  unfold PurePosixPath.sep. intros ->. reflexivity.
Qed.

Lemma parse_parts_join (parts : list string) :
  Forall good_part parts ->
  filter PurePosixPath.is_component
    (PyStr.split (PyStr.join "/" parts) PurePosixPath.sep) = parts.
Proof.
  intros H. destruct parts as [|x l]; [reflexivity|].
  rewrite split_join by (discriminate || now apply good_no_sep).
  now apply filter_good.
Qed.

Lemma parse_wf (s : string) : parsed_path (PurePosixPath.parse s).
Proof.
  unfold PurePosixPath.parse.
  destruct (PurePosixPath.splitroot s) as [rt rel] eqn:E. split.
  - cbn [PurePosixPath.root]. unfold PurePosixPath.splitroot in E.
    destruct s as [|c s]; [injection E as <- _; auto|].
    destruct (Ascii.eqb c PurePosixPath.sep); [|injection E as <- _; auto].
    destruct (Nat.eqb _ 2); injection E as <- _; auto.
  - cbn [PurePosixPath.parts]. apply Forall_forall. intros x Hx.
    apply filter_In in Hx as [Hin Hcomp]. split; [exact Hcomp|].
    pose proof (split_no_sep rel) as Hall.
    rewrite Forall_forall in Hall. now apply Hall.
Qed.

Lemma truediv_wf (q : PurePosixPath.t) (key : string) :
  parsed_path q -> parsed_path (PurePosixPath.truediv q key).
Proof.
  intros [Hroot Hparts]. unfold PurePosixPath.truediv.
  destruct (parse_wf key) as [Hkroot Hkparts].
  destruct (negb _); split; try assumption.
  cbn [PurePosixPath.parts]. apply Forall_app. now split.
Qed.

Lemma parse_unrooted (s : string) :
  PyStr.startswith s "/" = false ->
  PurePosixPath.parse s
  = PurePosixPath.mk "" (filter PurePosixPath.is_component
                                (PyStr.split s PurePosixPath.sep)).
Proof.
  intros H. unfold PurePosixPath.parse, PurePosixPath.splitroot.
  destruct s as [|c s]; [reflexivity|].
  cbn [PyStr.startswith] in H. rewrite andb_true_r in H.
  unfold PurePosixPath.sep at 1. now rewrite H.
Qed.

Lemma parse_rooted (j : string) :
  PyStr.startswith j "/" = false ->
  PurePosixPath.parse ("/" ^^ j)
  = PurePosixPath.mk "/" (filter PurePosixPath.is_component
                                 (PyStr.split j PurePosixPath.sep))
  /\ PurePosixPath.parse ("//" ^^ j)
     = PurePosixPath.mk "//" (filter PurePosixPath.is_component
                                     (PyStr.split j PurePosixPath.sep)).
Proof.
  intros H. pose proof (lstrip_relative _ H) as Hl.
  unfold PurePosixPath.parse, PurePosixPath.splitroot, PurePosixPath.sep in *.
  cbn [String.append]. rewrite !Ascii.eqb_refl. cbn [PyStr.lstrip].
  rewrite !Ascii.eqb_refl, !Hl. cbn [String.length].
  replace (S (String.length j) - String.length j) with 1 by lia.
  replace (S (S (String.length j)) - String.length j) with 2 by lia.
  split; reflexivity.
Qed.

(** Parsing the string of a parsed path gives the path back. *)
Lemma parse_to_str (q : PurePosixPath.t) :
  parsed_path q -> PurePosixPath.parse (PurePosixPath.to_str q) = q.
Proof.
  destruct q as [rt parts]. intros [Hroot Hparts].
  cbn [PurePosixPath.root PurePosixPath.parts] in Hroot, Hparts.
  pose proof (join_good_start parts Hparts) as Hstart.
  pose proof (parse_parts_join parts Hparts) as Hsplit.
  unfold PurePosixPath.to_str. cbn [PurePosixPath.root PurePosixPath.parts].
  destruct Hroot as [-> | [-> | ->]].
  - cbn [String.append].
    destruct (String.eqb (PyStr.join "/" parts) "") eqn:E.
    + apply String.eqb_eq in E.
      destruct parts as [|x l]; [reflexivity|]. exfalso.
      inversion Hparts as [|? ? [Hx _] _]; subst.
      destruct x; [discriminate Hx|]. destruct l; discriminate E.
    + rewrite (parse_unrooted _ Hstart). now rewrite Hsplit.
  - assert (E : String.eqb ("/" ^^ PyStr.join "/" parts) "" = false)
      by reflexivity.
    rewrite E, (proj1 (parse_rooted _ Hstart)). now rewrite Hsplit.
  - assert (E : String.eqb ("//" ^^ PyStr.join "/" parts) "" = false)
      by reflexivity.
    rewrite E, (proj2 (parse_rooted _ Hstart)). now rewrite Hsplit.
Qed.

(** X1.  An address that [_keyname] returns is never empty and is in the
    normal form of pathlib: [str(Path(address))] is the address. *)
Theorem keyname_is_normal (path_prefix key : string) :
  _keyname path_prefix key <> ""
  /\ PurePosixPath.to_str (PurePosixPath.parse (_keyname path_prefix key))
     = _keyname path_prefix key.
Proof.
  split.
  - unfold _keyname, PurePosixPath.to_str.
    destruct (String.eqb _ "") eqn:E; [discriminate|].
    now apply String.eqb_neq in E.
  - unfold _keyname. rewrite parse_to_str; [reflexivity|].
    apply truediv_wf, parse_wf.
Qed.

(** ** Addresses of a child *)

Lemma truediv_relative (q : PurePosixPath.t) (key : string) :
  PyStr.startswith key "/" = false ->
  PurePosixPath.truediv q key
  = PurePosixPath.mk (PurePosixPath.root q)
      (PurePosixPath.parts q ++ PurePosixPath.parts (PurePosixPath.parse key)).
Proof.
  intros H. unfold PurePosixPath.truediv. now rewrite (parse_relative key H).
Qed.

Lemma relative_append (a b : string) :
  relative_name a -> PyStr.startswith (a ^^ b) "/" = false.
Proof.
  intros [Hne Hrel]. destruct a as [|c a]; [congruence|]. exact Hrel.
Qed.

(** [Path(a + "/" + b) == Path(a) / b] for relative [a] and [b]. *)
Lemma parse_join_relative (a b : string) :
  relative_name a -> PyStr.startswith b "/" = false ->
  PurePosixPath.parse (a ^^ "/" ^^ b)
  = PurePosixPath.truediv (PurePosixPath.parse a) b.
Proof.
  intros Ha Hb.
  rewrite (truediv_relative _ b Hb).
  rewrite (parse_unrooted _ (relative_append a _ Ha)).
  rewrite (parse_unrooted a (proj2 Ha)), (parse_unrooted b Hb).
  cbn [PurePosixPath.root PurePosixPath.parts].
  change ("/" ^^ b) with (String PurePosixPath.sep b).
  now rewrite split_append_sep, filter_app.
Qed.

Lemma keyname_nested (p name key : string) :
  relative_name name -> PyStr.startswith key "/" = false ->
  _keyname (_keyname p name) key = _keyname p (name ^^ "/" ^^ key).
Proof.
  intros Hname Hkey. unfold _keyname.
  rewrite parse_to_str by apply truediv_wf, parse_wf.
  rewrite (truediv_relative _ name (proj2 Hname)).
  rewrite (truediv_relative _ key Hkey).
  rewrite (truediv_relative _ _ (relative_append name _ Hname)).
  rewrite (parse_join_relative name key Hname Hkey).
  rewrite (truediv_relative _ key Hkey).
  rewrite (parse_unrooted name (proj2 Hname)).
  cbn [PurePosixPath.root PurePosixPath.parts]. now rewrite app_assoc.
Qed.

(** X2.  A child that is created shares the bucket and the connection
    string of its parent, and its encoding when that is not empty; its root
    prefix is the address of its name under the parent; and under a relative
    name, a relative key of the child is the key [name/key] of the parent. *)
Theorem child_addresses {B : Type} (client : StorageClient B)
    (self made : GcsPipelineStorage) (b b' : B) (name : string)
    (log : list log_record) :
  child client self (Some name) b = (Return (made, b'), log) ->
  _bucket_name made = _bucket_name self
  /\ _connection_string made = _connection_string self
  /\ (_encoding self <> "" -> _encoding made = _encoding self)
  /\ _path_prefix made = _keyname (_path_prefix self) name
  /\ (relative_name name ->
      forall key, PyStr.startswith key "/" = false ->
        _keyname (_path_prefix made) key
        = _keyname (_path_prefix self) (name ^^ "/" ^^ key)).
Proof.
  unfold child, __init__. cbn [PyStr.or_else].
  destruct (String.eqb (_connection_string self) "") eqn:Hconn;
    rewrite ?Hconn; [discriminate|].
  assert (Hpath : String.eqb (_keyname (_path_prefix self) name) "" = false)
    by (apply String.eqb_neq, keyname_is_normal).
  rewrite Hpath.
  destruct (from_service_account_json client _) as [[]|e]; [|discriminate].
  destruct (create_container client _ b) as [b1|e]; [|discriminate].
  cbn [bind]. intros H. injection H as <- _ _.
  cbn [_bucket_name _connection_string _encoding _path_prefix].
  repeat split; auto.
  - intros Henc. apply String.eqb_neq in Henc. now rewrite Henc.
  - intros Hname key Hkey. now apply keyname_nested.
Qed.

Lemma child_addresses_witness :
  let m := Mem.of_objects "bkt" [] in
  let sub := {| _connection_string := "sa.json"; _bucket_name := "bkt";
                _path_prefix := "out/sub"; _encoding := "utf-8" |} in
  child Mem.client out_storage (Some "sub") m
  = (Return (sub, m), [InfoCreating "bkt" "out/sub"])
  /\ relative_name "sub" /\ PyStr.startswith "a" "/" = false
  /\ _keyname (_path_prefix sub) "a" = _keyname (_path_prefix out_storage) "sub/a".
Proof.
  intros m sub.
  assert (Hname : relative_name "sub") by (split; [discriminate | reflexivity]).
  split; [reflexivity|]. split; [exact Hname|]. split; [reflexivity|].
  exact (proj2 (proj2 (proj2 (proj2
           (child_addresses Mem.client out_storage sub m m "sub"
              [InfoCreating "bkt" "out/sub"] eq_refl)))) Hname "a" eq_refl).
Defined.

(** ** Reading back what was written *)

Lemma reach_serves {A : Type} (m : Mem.t) (self : GcsPipelineStorage)
    (k : result A) :
  serves m self -> Mem.reach m (_bucket_name self) k = k.
Proof.
  intros (Hup & Hmade & Hbucket). unfold Mem.reach.
  now rewrite Hup, Hmade, Hbucket, String.eqb_refl.
Qed.

Lemma serves_with_objects (m : Mem.t) (self : GcsPipelineStorage)
    (objs : list (string * Codecs.bytes)) :
  serves m self -> serves (Mem.with_objects m objs) self.
Proof. intros H. exact H. Qed.

Lemma lookup_put_same (blob : string) (data : Codecs.bytes)
    (objs : list (string * Codecs.bytes)) :
  Re.lookup blob (Mem.put blob data objs) = Some data.
Proof.
  induction objs as [|[n d] objs IH]; simpl.
  - now rewrite String.eqb_refl.
  - destruct (String.eqb n blob) eqn:E; simpl.
    + now rewrite String.eqb_refl.
    + now rewrite E.
Qed.

Lemma lookup_put_other (blob other : string) (data : Codecs.bytes)
    (objs : list (string * Codecs.bytes)) :
  other <> blob ->
  Re.lookup other (Mem.put blob data objs) = Re.lookup other objs.
Proof.
  intros Hne. induction objs as [|[n d] objs IH]; simpl.
  - apply not_eq_sym, String.eqb_neq in Hne. now rewrite Hne.
  - destruct (String.eqb_spec n blob) as [->|Hn]; simpl.
    + apply not_eq_sym, String.eqb_neq in Hne. now rewrite Hne.
    + now rewrite IH.
Qed.

Lemma has_name_lookup (blob : string) (objs : list (string * Codecs.bytes)) :
  Mem.has_name blob objs
  = match Re.lookup blob objs with Some _ => true | None => false end.
Proof.
  unfold Mem.has_name. induction objs as [|[n d] objs IH]; simpl; [reflexivity|].
  destruct (String.eqb n blob); [reflexivity | exact IH].
Qed.

Lemma names_put (blob : string) (data : Codecs.bytes)
    (objs : list (string * Codecs.bytes)) :
  forall name, In name (map fst (Mem.put blob data objs))
               <-> name = blob \/ In name (map fst objs).
Proof.
  intros name. induction objs as [|[n d] objs IH]; simpl.
  - intuition.
  - destruct (String.eqb_spec n blob) as [->|Hn]; simpl; [intuition|].
    rewrite IH. intuition.
Qed.

Lemma nodup_put (blob : string) (data : Codecs.bytes)
    (objs : list (string * Codecs.bytes)) :
  NoDup (map fst objs) -> NoDup (map fst (Mem.put blob data objs)).
Proof.
  induction objs as [|[n d] objs IH]; simpl; intros H.
  - constructor; [intros [] | constructor].
  - inversion H as [|? ? Hnotin Hrest]; subst.
    destruct (String.eqb_spec n blob) as [->|Hn]; simpl.
    + now constructor.
    + constructor; [|now apply IH].
      rewrite names_put. intros [->|Hin]; [congruence | contradiction].
Qed.

Lemma nodup_remove (blob : string) (objs : list (string * Codecs.bytes)) :
  NoDup (map fst objs) -> NoDup (map fst (Mem.remove blob objs)).
Proof.
  unfold Mem.remove. induction objs as [|[n d] objs IH]; simpl; intros H.
  - constructor.
  - inversion H as [|? ? Hnotin Hrest]; subst.
    destruct (negb (String.eqb n blob)); simpl; [|now apply IH].
    constructor; [|now apply IH].
    rewrite in_map_iff. intros [o [Ho Hin]]. apply filter_In in Hin as [Hin _].
    apply Hnotin. rewrite in_map_iff. eauto.
Qed.

(** X3.  On a bucket that serves the storage, [set] of bytes succeeds
    without a log record; afterwards [has] tells that the key exists and
    [get] with [as_bytes] returns the bytes that were written, whatever was
    stored under the key before. *)
Theorem set_bytes_then_get (self : GcsPipelineStorage) (m : Mem.t)
    (key : string) (data : Codecs.bytes) (encoding encoding' : option string) :
  serves m self ->
  exists m',
    set Mem.client self m key (Bytes data) encoding = (Return tt, m', [])
    /\ serves m' self
    /\ has Mem.client self m' key = Return true
    /\ get Mem.client self m' key true encoding'
       = (Return (Some (Bytes data)), []).
Proof.
  intros Hs.
  exists (Mem.with_objects m
            (Mem.put (_keyname (_path_prefix self) key) data (Mem.objects m))).
  assert (Hs' := serves_with_objects m self
                   (Mem.put (_keyname (_path_prefix self) key) data (Mem.objects m)) Hs).
  split; [|split; [exact Hs'|split]].
  - unfold set. cbn [upload_from_string Mem.client].
    now rewrite (reach_serves m self _ Hs).
  - unfold has. cbn [blob_exists Mem.client].
    rewrite (reach_serves _ self _ Hs'). cbn [Mem.objects Mem.with_objects].
    now rewrite has_name_lookup, lookup_put_same.
  - unfold get. cbn [download_as_bytes Mem.client].
    rewrite (reach_serves _ self _ Hs'). cbn [Mem.objects Mem.with_objects].
    now rewrite lookup_put_same.
Qed.

Lemma set_bytes_then_get_witness :
  let m := Mem.of_objects "bkt" [("out/a", [x00])] in
  serves m out_storage
  /\ exists m',
       set Mem.client out_storage m "a" (Bytes [x68; x69]) None
       = (Return tt, m', [])
       /\ get Mem.client out_storage m' "a" true None
          = (Return (Some (Bytes [x68; x69])), []).
Proof.
  intros m.
  assert (Hs : serves m out_storage) by (repeat split).
  split; [exact Hs|].
  destruct (set_bytes_then_get out_storage m "a" [x68; x69] None None Hs)
    as (m' & Hset & _ & _ & Hget).
  exists m'. split; assumption.
Defined.

(** X4.  [set] touches at most the object at the address of its key: every
    other address holds what it held before, whether the write succeeds,
    fails in the backend or fails to encode; and the names of the bucket stay
    free of duplicates. *)
Theorem set_frame (self : GcsPipelineStorage) (m : Mem.t) (key : string)
    (value_ : value) (encoding : option string) :
  let m' := snd (fst (set Mem.client self m key value_ encoding)) in
  (forall address,
     address <> _keyname (_path_prefix self) key ->
     Re.lookup address (Mem.objects m') = Re.lookup address (Mem.objects m))
  /\ (NoDup (Mem.names m) -> NoDup (Mem.names m')).
Proof.
  assert (Hupload : forall data,
            let r := upload_from_string Mem.client m (_bucket_name self)
                       (_keyname (_path_prefix self) key) data in
            r = Return (Mem.with_objects m
                          (Mem.put (_keyname (_path_prefix self) key) data
                                   (Mem.objects m)))
            \/ exists e, r = Raise e).
  { intros data. cbn [upload_from_string Mem.client]. unfold Mem.reach.
    destruct (negb (Mem.online m)); [right; eauto|].
    destruct (_ || _)%bool; [right; eauto | now left]. }
  assert (Hput : forall data,
            let m1 := Mem.with_objects m
                        (Mem.put (_keyname (_path_prefix self) key) data
                                 (Mem.objects m)) in
            (forall address,
               address <> _keyname (_path_prefix self) key ->
               Re.lookup address (Mem.objects m1) = Re.lookup address (Mem.objects m))
            /\ (NoDup (Mem.names m) -> NoDup (Mem.names m1))).
  { intros data. split.
    - intros address Hne. now apply lookup_put_other.
    - apply nodup_put. }
  unfold set. destruct value_ as [data|s]; cbn [bind].
  - destruct (Hupload data) as [-> | [e ->]]; cbn [fst snd]; [apply Hput | auto].
  - destruct (Codecs.encode s _) as [data|e]; cbn [bind fst snd]; [|auto].
    destruct (Hupload data) as [-> | [e ->]]; cbn [fst snd]; [apply Hput | auto].
Qed.

Lemma set_frame_witness :
  let m := Mem.of_objects "bkt" [("out/a", [x00]); ("out/b", [x01])] in
  "out/b" <> _keyname (_path_prefix out_storage) "a"
  /\ Re.lookup "out/b"
       (Mem.objects (snd (fst (set Mem.client out_storage m "a"
                                   (Str [233%N]) (Some "ascii")))))
     = Re.lookup "out/b" (Mem.objects m).
Proof.
  intros m.
  assert (Hne : "out/b" <> _keyname (_path_prefix out_storage) "a")
    by (vm_compute; discriminate).
  split; [exact Hne|].
  exact (proj1 (set_frame out_storage m "a" (Str [233%N]) (Some "ascii"))
           "out/b" Hne).
Defined.

(** ** Deleting *)

(** X5.  On a bucket that serves the storage, [delete] of a key that exists
    removes it: afterwards [has] is false and [get] returns [None] with a
    log record, and every other address is untouched; [delete] of a key
    that does not exist raises [NotFound] and changes nothing. *)
Theorem delete_then_has (self : GcsPipelineStorage) (m : Mem.t) (key : string) :
  serves m self ->
  let address := _keyname (_path_prefix self) key in
  (has Mem.client self m key = Return true ->
   exists m',
     delete Mem.client self m key = (Return tt, m')
     /\ has Mem.client self m' key = Return false
     /\ (forall as_bytes encoding,
           get Mem.client self m' key as_bytes encoding
           = (Return None, [ErrorGetting address (NotFound address)]))
     /\ (forall other, other <> address ->
           Re.lookup other (Mem.objects m') = Re.lookup other (Mem.objects m))
     /\ (NoDup (Mem.names m) -> NoDup (Mem.names m')))
  /\ (has Mem.client self m key = Return false ->
      delete Mem.client self m key = (Raise (NotFound address), m)).
Proof.
  intros Hs address. unfold has, delete. fold address.
  cbn [blob_exists blob_delete Mem.client].
  rewrite !(reach_serves m self _ Hs). split.
  - intros H. injection H as Hhas. rewrite Hhas.
    set (m' := Mem.with_objects m (Mem.remove address (Mem.objects m))).
    assert (Hs' : serves m' self) by exact Hs.
    assert (Hgone : Re.lookup address (Mem.objects m') = None).
    { unfold m', Mem.remove. cbn [Mem.objects Mem.with_objects].
      rewrite (lookup_filter (fun n => negb (String.eqb n address))).
      now rewrite String.eqb_refl. }
    exists m'. split; [reflexivity|]. split; [|split; [|split]].
    + rewrite (reach_serves m' self _ Hs'). now rewrite has_name_lookup, Hgone.
    + intros as_bytes encoding. unfold get. fold address.
      cbn [download_as_bytes Mem.client].
      rewrite (reach_serves m' self _ Hs'), Hgone. reflexivity.
    + intros other Hne. unfold m', Mem.remove. cbn [Mem.objects Mem.with_objects].
      rewrite (lookup_filter (fun n => negb (String.eqb n address))).
      apply String.eqb_neq in Hne. now rewrite Hne.
    + apply nodup_remove.
  - intros H. injection H as Hhas. now rewrite Hhas.
Qed.

Lemma delete_then_has_witness :
  let m := Mem.of_objects "bkt" [("out/a", [x00]); ("out/b", [x01])] in
  serves m out_storage
  /\ has Mem.client out_storage m "a" = Return true
  /\ has Mem.client out_storage m "zz" = Return false
  /\ delete Mem.client out_storage m "zz" = (Raise (NotFound "out/zz"), m)
  /\ exists m',
       delete Mem.client out_storage m "a" = (Return tt, m')
       /\ has Mem.client out_storage m' "a" = Return false.
Proof.
  intros m.
  assert (Hs : serves m out_storage) by (repeat split).
  split; [exact Hs|]. split; [reflexivity|]. split; [reflexivity|]. split.
  - exact (proj2 (delete_then_has out_storage m "zz" Hs) eq_refl).
  - destruct (proj1 (delete_then_has out_storage m "a" Hs) eq_refl)
      as (m' & Hd & Hh & _).
    exists m'. split; assumption.
Defined.

(** ** Text written and read back *)

Ltac dlia := zify; Z.to_euclidean_division_equations; lia.

Ltac nbool :=
  repeat match goal with
    | |- context [N.ltb ?a ?b] =>
        first [rewrite (proj2 (N.ltb_lt a b)) by lia
              | rewrite (proj2 (N.ltb_ge a b)) by lia]
    | |- context [N.leb ?a ?b] =>
        first [rewrite (proj2 (N.leb_le a b)) by lia
              | rewrite (proj2 (N.leb_gt a b)) by lia]
    end.

Lemma byte_roundtrip (ns : list N) :
  Forall (fun n => (n < 256)%N) ns ->
  map Byte.to_N (map Codecs.byte_of ns) = ns.
Proof.
  induction 1 as [|n ns Hn _ IH]; [reflexivity|].
  cbn [map]. rewrite IH. f_equal. unfold Codecs.byte_of.
  destruct (Byte.of_N n) as [b|] eqn:E.
  - now apply Byte.to_of_N.
  - apply Byte.of_N_None_iff in E. lia.
Qed.

Lemma all_below_some (limit : N) (l ns : list N) :
  Codecs.all_below limit l = Some ns ->
  ns = l /\ Forall (fun n => (n < limit)%N) l.
Proof.
  unfold Codecs.all_below. destruct (forallb _ l) eqn:E; [|discriminate].
  intros H. injection H as <-. split; [reflexivity|].
  rewrite forallb_forall in E. apply Forall_forall. intros n Hn.
  now apply N.ltb_lt, E.
Qed.

Lemma all_below_ok (limit : N) (l : list N) :
  Forall (fun n => (n < limit)%N) l -> Codecs.all_below limit l = Some l.
Proof.
  intros H. unfold Codecs.all_below.
  replace (forallb (fun n => N.ltb n limit) l) with true; [reflexivity|].
  symmetry. apply forallb_forall. rewrite Forall_forall in H.
  intros n Hn. now apply N.ltb_lt, H.
Qed.

Lemma decode_utf8_1 (b0 : N) (r : list N) :
  (b0 < 128)%N ->
  Codecs.decode_utf8 (b0 :: r) = Codecs.cons_opt b0 (Codecs.decode_utf8 r).
Proof. intros H. cbn [Codecs.decode_utf8]. now nbool. Qed.

Lemma decode_utf8_2 (b0 b1 cp : N) (r : list N) :
  (194 <= b0 < 224)%N -> (128 <= b1 < 192)%N ->
  cp = ((b0 - 192) * 64 + (b1 - 128))%N ->
  Codecs.decode_utf8 (b0 :: b1 :: r) = Codecs.cons_opt cp (Codecs.decode_utf8 r).
Proof.
  intros H0 H1 ->. cbn [Codecs.decode_utf8]. unfold Codecs.is_continuation.
  now nbool.
Qed.

Lemma decode_utf8_3 (b0 b1 b2 cp : N) (r : list N) :
  (224 <= b0 < 240)%N -> (128 <= b1 < 192)%N -> (128 <= b2 < 192)%N ->
  cp = ((b0 - 224) * 4096 + (b1 - 128) * 64 + (b2 - 128))%N ->
  (2048 <= cp)%N -> Codecs.is_surrogate cp = false ->
  Codecs.decode_utf8 (b0 :: b1 :: b2 :: r)
  = Codecs.cons_opt cp (Codecs.decode_utf8 r).
Proof.
  intros H0 H1 H2 Hcp Hmin Hs. cbn [Codecs.decode_utf8].
  rewrite <- Hcp, Hs. unfold Codecs.is_continuation. now nbool.
Qed.

Lemma decode_utf8_4 (b0 b1 b2 b3 cp : N) (r : list N) :
  (240 <= b0 < 245)%N -> (128 <= b1 < 192)%N -> (128 <= b2 < 192)%N ->
  (128 <= b3 < 192)%N ->
  cp = ((b0 - 240) * 262144 + (b1 - 128) * 4096 + (b2 - 128) * 64
        + (b3 - 128))%N ->
  (65536 <= cp <= 1114111)%N ->
  Codecs.decode_utf8 (b0 :: b1 :: b2 :: b3 :: r)
  = Codecs.cons_opt cp (Codecs.decode_utf8 r).
Proof.
  intros H0 H1 H2 H3 Hcp Hrange. cbn [Codecs.decode_utf8].
  rewrite <- Hcp. unfold Codecs.is_continuation. now nbool.
Qed.

Lemma some_inj {A : Type} (x y : A) : Some x = Some y -> y = x.
Proof. congruence. Qed.

Lemma utf8_roundtrip (t : Codecs.text) :
  forall ns, Codecs.encode_utf8 t = Some ns ->
             Forall (fun n => (n < 256)%N) ns /\ Codecs.decode_utf8 ns = Some t.
Proof.
  induction t as [|cp t IH]; intros ns H.
  - apply some_inj in H. subst ns. split; [constructor | reflexivity].
  - cbn [Codecs.encode_utf8] in H.
    destruct (Codecs.encode_utf8 t) as [ns'|].
    2:{ repeat match type of H with
               | (if ?c then _ else _) = _ => destruct c
               end; discriminate H. }
    destruct (IH ns' eq_refl) as [Hbytes Hdec].
    cbn [Codecs.cons_opt Codecs.app_opt] in H.
    destruct (N.ltb_spec cp 128) as [H1|H1].
    { apply some_inj in H. subst ns. split; [constructor; [lia | exact Hbytes]|].
      rewrite decode_utf8_1 by lia. now rewrite Hdec. }
    destruct (N.ltb_spec cp 2048) as [H2|H2].
    { apply some_inj in H. subst ns. cbn [app]. split.
      - constructor; [dlia|]. constructor; [dlia|]. exact Hbytes.
      - rewrite (decode_utf8_2 _ _ cp) by dlia. now rewrite Hdec. }
    destruct (N.ltb_spec cp 65536) as [H3|H3].
    { destruct (Codecs.is_surrogate cp) eqn:Hs; [discriminate H|].
      apply some_inj in H. subst ns. cbn [app]. split.
      - constructor; [dlia|]. constructor; [dlia|]. constructor; [dlia|].
        exact Hbytes.
      - rewrite (decode_utf8_3 _ _ _ cp) by (assumption || dlia).
        now rewrite Hdec. }
    destruct (N.leb_spec cp 1114111) as [H4|H4]; [|discriminate H].
    apply some_inj in H. subst ns. cbn [app]. split.
    + constructor; [dlia|]. constructor; [dlia|]. constructor; [dlia|].
      constructor; [dlia|]. exact Hbytes.
    + rewrite (decode_utf8_4 _ _ _ _ cp) by dlia. now rewrite Hdec.
Qed.

(** What [encode] produces, [decode] reads back, in each codec. *)
Lemma decode_encode (s : Codecs.text) (coding : string) (data : Codecs.bytes) :
  Codecs.encode s coding = Return data -> Codecs.decode data coding = Return s.
Proof.
  unfold Codecs.encode, Codecs.decode.
  destruct (Codecs.lookup coding) as [[| |]|]; [| | |discriminate].
  - destruct (Codecs.encode_utf8 s) as [ns|] eqn:E; [|discriminate].
    intros H. injection H as <-.
    destruct (utf8_roundtrip s ns E) as [Hb Hd].
    now rewrite (byte_roundtrip ns Hb), Hd.
  - destruct (Codecs.all_below 256 s) as [ns|] eqn:E; [|discriminate].
    intros H. injection H as <-.
    destruct (all_below_some _ _ _ E) as [-> Hb].
    now rewrite (byte_roundtrip s Hb).
  - destruct (Codecs.all_below 128 s) as [ns|] eqn:E; [|discriminate].
    intros H. injection H as <-.
    destruct (all_below_some _ _ _ E) as [-> Hb].
    rewrite byte_roundtrip.
    + now rewrite (all_below_ok 128 s Hb).
    + eapply Forall_impl; [|exact Hb]. intros n Hn. simpl in Hn. lia.
Qed.

(** X7.  On a bucket that serves the storage, text that [set] can encode in
    the encoding that the call names is written without a log record, and
    [get] with the same encoding returns the same text. *)
Theorem set_text_then_get (self : GcsPipelineStorage) (m : Mem.t)
    (key coding : string) (s : Codecs.text) (data : Codecs.bytes) :
  serves m self -> coding <> "" ->
  Codecs.encode s coding = Return data ->
  exists m',
    set Mem.client self m key (Str s) (Some coding) = (Return tt, m', [])
    /\ serves m' self
    /\ get Mem.client self m' key true None = (Return (Some (Bytes data)), [])
    /\ get Mem.client self m' key false (Some coding)
       = (Return (Some (Str s)), []).
Proof.
  intros Hs Hcoding Henc.
  apply String.eqb_neq in Hcoding.
  exists (Mem.with_objects m
            (Mem.put (_keyname (_path_prefix self) key) data (Mem.objects m))).
  assert (Hs' := serves_with_objects m self
                   (Mem.put (_keyname (_path_prefix self) key) data (Mem.objects m)) Hs).
  split; [|split; [exact Hs'|split]].
  - unfold set. cbn [PyStr.or_else]. rewrite Hcoding, Henc. cbn [bind].
    cbn [upload_from_string Mem.client].
    now rewrite (reach_serves m self _ Hs).
  - unfold get. cbn [download_as_bytes Mem.client].
    rewrite (reach_serves _ self _ Hs'). cbn [Mem.objects Mem.with_objects].
    now rewrite lookup_put_same.
  - unfold get. cbn [download_as_bytes Mem.client PyStr.or_else].
    rewrite (reach_serves _ self _ Hs'). cbn [Mem.objects Mem.with_objects].
    rewrite lookup_put_same, Hcoding. cbn [bind negb].
    now rewrite (decode_encode s coding data Henc).
Qed.

Lemma set_text_then_get_witness :
  let m := Mem.of_objects "bkt" [] in
  serves m out_storage /\ "utf-8" <> ""
  /\ Codecs.encode [233; 8364; 128512]%N "utf-8"
     = Return [xc3; xa9; xe2; x82; xac; xf0; x9f; x98; x80]
  /\ exists m',
       set Mem.client out_storage m "a" (Str [233; 8364; 128512]%N) (Some "utf-8")
       = (Return tt, m', [])
       /\ get Mem.client out_storage m' "a" false (Some "utf-8")
          = (Return (Some (Str [233; 8364; 128512]%N)), []).
Proof.
  intros m.
  assert (Hs : serves m out_storage) by (repeat split).
  split; [exact Hs|]. split; [discriminate|]. split; [reflexivity|].
  destruct (set_text_then_get out_storage m "a" "utf-8" [233; 8364; 128512]%N
              [xc3; xa9; xe2; x82; xac; xf0; x9f; x98; x80]
              Hs ltac:(discriminate) eq_refl) as (m' & Hset & _ & _ & Hget).
  exists m'. split; assumption.
Defined.

(** ** What [find] yields *)







(** ** The last progress report *)

Lemma reported_split (t : list event) :
  forall earlier status later,
    reported t = earlier ++ status :: later ->
    exists pre post, t = pre ++ Report status :: post
                     /\ reported pre = earlier.
Proof.
  induction t as [|e t IH]; intros earlier status later H.
  - destruct earlier; discriminate H.
  - destruct e as [item|p|record].
    + rewrite reported_yield in H.
      destruct (IH _ _ _ H) as (pre & post & -> & Hr).
      exists (Yield item :: pre), post. split; [reflexivity | exact Hr].
    + change (reported (Report p :: t)) with (p :: reported t) in H.
      destruct earlier as [|x earlier].
      * injection H as -> _. exists [], t. split; reflexivity.
      * injection H as -> H.
        destruct (IH _ _ _ H) as (pre & post & -> & Hr).
        exists (Report x :: pre), post. split; [reflexivity|].
        change (reported (Report x :: pre)) with (x :: reported pre).
        now rewrite Hr.
    + change (reported (Logged record :: t)) with (reported t) in H.
      destruct (IH _ _ _ H) as (pre & post & -> & Hr).
      exists (Logged record :: pre), post. split; [reflexivity | exact Hr].
Qed.

(** X10.  With a progress sink, no status reports more candidates completed
    than the total; and when [find] ends normally over a listing that is
    not empty, without truncation, the last status it emits reports all
    candidates completed. *)
Theorem find_progress_completes {B : Type} (client : StorageClient B)
    (self : GcsPipelineStorage) (b : B) (file_pattern : Re.regex)
    (base_dir : option string) (file_filter : option file_filter_t)
    (max_count : Z) (listing : list string) :
  list_blobs client b (_bucket_name self) (PyStr.or_else base_dir "")
  = Return listing ->
  let out := find client self b file_pattern base_dir true file_filter max_count in
  (forall status, In status (reported (fst out)) ->
                  completed_items status <= total_items status
                  /\ total_items status = List.length listing)
  /\ (listing <> [] -> snd out = Return tt -> ~ truncated max_count (fst out) ->
      exists earlier status,
        reported (fst out) = earlier ++ [status]
        /\ completed_items status = List.length listing
        /\ total_items status = List.length listing).
Proof.
  intros Hlist out.
  destruct (find_listed client self b file_pattern base_dir true file_filter
              max_count listing Hlist) as (Hy & Hr & Hs).
  fold out in Hy, Hr, Hs.
  set (base := PyStr.or_else base_dir "") in *.
  set (run := find_loop self file_pattern base true file_filter max_count
                        (List.length listing) listing 0 0) in *.
  pose proof (loop_report_bound self file_pattern base file_filter max_count
                (List.length listing) true listing 0 0) as Hbound.
  fold run in Hbound.
  assert (Hstatus : forall pre status post,
             fst run = pre ++ Report status :: post ->
             completed_items status = S (List.length (reported pre))
             /\ total_items status = List.length listing).
  { intros pre status post Hsplit.
    destruct (loop_report_status self file_pattern base file_filter max_count
                (List.length listing) listing 0 0 pre status post Hsplit)
      as (nf & Hcount & ->).
    split; simpl; lia. }
  split.
  - intros status Hin. rewrite Hr in Hin.
    apply in_split in Hin as (r1 & r2 & Hsplit).
    destruct (reported_split (fst run) r1 status r2 Hsplit)
      as (pre & post & Ht & Hpre).
    destruct (Hstatus _ _ _ Ht) as [Hc Htot].
    split; [|exact Htot]. rewrite Hc, Htot, Hpre.
    rewrite Hsplit, length_app in Hbound. simpl in Hbound. lia.
  - intros Hne Hret Hcut.
    assert (Hall : List.length (reported (fst run)) = List.length listing).
    { apply (loop_report_all self file_pattern base file_filter max_count
               (List.length listing) listing 0 0).
      - destruct (Z.lt_ge_cases 0 max_count); [left | right]; lia.
      - split; [change (snd run = Return tt); now rewrite <- Hs|].
        intros [Hpos Hn]. apply Hcut. split; [exact Hpos|].
        rewrite Hy. exact Hn. }
    destruct (exists_last (l := reported (fst run))) as (earlier & status & Hlast).
    { intros E. rewrite E in Hall. destruct listing; [congruence | discriminate]. }
    exists earlier, status. rewrite Hr. split; [exact Hlast|].
    destruct (reported_split _ _ _ [] Hlast) as (pre & post & Ht & Hpre).
    destruct (Hstatus _ _ _ Ht) as [Hc Htot].
    split; [|exact Htot]. rewrite Hc, Hpre.
    rewrite Hlast, length_app in Hall. simpl in Hall. lia.
Qed.

Lemma find_progress_completes_witness :
  let out := find Mem.client out_storage out_bucket
                  (Re.Cat (Re.lit "out/") year_json) None true None (-1) in
  list_blobs Mem.client out_bucket (_bucket_name out_storage) (PyStr.or_else None "")
  = Return out_listing
  /\ out_listing <> [] /\ snd out = Return tt /\ ~ truncated (-1) (fst out)
  /\ exists earlier status,
       reported (fst out) = earlier ++ [status]
       /\ completed_items status = 3.
Proof.
  intros out.
  assert (Hcut : ~ truncated (-1) (fst out)) by (intros [H _]; discriminate H).
  split; [reflexivity|]. split; [discriminate|]. split; [reflexivity|].
  split; [exact Hcut|].
  destruct (proj2 (find_progress_completes Mem.client out_storage out_bucket
                     (Re.Cat (Re.lit "out/") year_json) None None (-1)
                     out_listing eq_refl)
              ltac:(discriminate) eq_refl Hcut)
    as (earlier & status & Hlast & Hc & _).
  exists earlier, status. split; [exact Hlast | exact Hc].
Defined.

(** ** Where the yielded keys come from *)

Lemma loop_yield_count (self : GcsPipelineStorage) (pat : Re.regex)
    (base : string) (progress : bool) (ff : option file_filter_t) (max : Z)
    (total : nat) (blobs : list string) :
  forall l f,
    List.length (yielded (fst (find_loop self pat base progress ff max total
                                         blobs l f)))
    <= List.length blobs.
Proof.
  induction blobs as [|blob rest IH]; intros l f; [simpl; lia|].
  rewrite find_loop_cons.
  destruct (verdict pat base ff blob) as [[g|]|e].
  - destruct (cap_reached max (S l)); cbn [fst]; rewrite yielded_yield.
    + simpl. lia.
    + rewrite yielded_app, yielded_report. cbn [app List.length].
      specialize (IH (S l) f). lia.
  - cbn [fst]. rewrite yielded_app, yielded_report. cbn [app List.length].
    specialize (IH l (S f)). lia.
  - simpl. lia.
Qed.

(** X11.  Every pair that [find] yields comes from a candidate of the
    listing that starts with [base_dir] as a plain string, that the pattern
    matches from its start and that the filter accepts; its key is
    [blobname] of the candidate and its groups are those of the match.
    [find] yields no more pairs than there are candidates. *)
Theorem find_yields_only_matches {B : Type} (client : StorageClient B)
    (self : GcsPipelineStorage) (b : B) (file_pattern : Re.regex)
    (base_dir : option string) (progress : bool)
    (file_filter : option file_filter_t) (max_count : Z)
    (listing : list string) :
  let base := PyStr.or_else base_dir "" in
  list_blobs client b (_bucket_name self) base = Return listing ->
  let out := find client self b file_pattern base_dir progress file_filter
                  max_count in
  List.length (yielded (fst out)) <= List.length listing
  /\ forall key group,
       In (key, group) (yielded (fst out)) ->
       exists blob,
         In blob listing
         /\ key = blobname (_path_prefix self) blob
         /\ PyStr.startswith blob base = true
         /\ Re.match_ file_pattern blob = Some group
         /\ item_filter file_filter group = Return true.
Proof.
  intros base Hlist out.
  destruct (find_listed client self b file_pattern base_dir progress file_filter
              max_count listing Hlist) as (Hy & _ & _).
  fold out in Hy. fold base in Hy. rewrite Hy. split.
  - apply loop_yield_count.
  - intros key group Hin.
    destruct (loop_yield_sound _ _ _ _ _ _ _ _ _ _ _ _ Hin) as (blob & Hb & Hk & Hv).
    destruct (verdict_accepted _ _ _ _ _ Hv) as (Hm & Hbase & Hf).
    exists blob. repeat split; assumption.
Qed.

Lemma find_yields_only_matches_witness :
  let m := Mem.of_objects "bkt" [("a/b/1", []); ("a/bc/2", []); ("a/x/3", [])] in
  let pat := Re.Cat (Re.Star Re.AnyChar) (Re.Named "n" Re.Digit) in
  list_blobs Mem.client m (_bucket_name out_storage) (PyStr.or_else (Some "a/b") "")
  = Return ["a/b/1"; "a/bc/2"]
  /\ yielded (fst (find Mem.client out_storage m pat (Some "a/b") false None (-1)))
     = [("a/b/1", [("n", Some "1")]); ("a/bc/2", [("n", Some "2")])]
  /\ List.length
       (yielded (fst (find Mem.client out_storage m pat (Some "a/b") false None (-1))))
     <= 2.
Proof.
  intros m pat. split; [reflexivity|]. split; [reflexivity|].
  exact (proj1 (find_yields_only_matches Mem.client out_storage m pat
                  (Some "a/b") false None (-1) ["a/b/1"; "a/bc/2"] eq_refl)).
Defined.

(** An address under a relative prefix: the key that [blobname] gives
    resolves to the address again. *)
Lemma resolve_unresolve (p k : string) :
  relative_name p -> PyStr.startswith k "/" = false ->
  normal_path (p ^^ "/" ^^ k) ->
  blobname p (p ^^ "/" ^^ k) = k
  /\ _keyname p k = p ^^ "/" ^^ k.
Proof.
  intros Hp Hk [_ Hnormal]. split.
  - rewrite blobname_append. reflexivity.
  - unfold _keyname. rewrite <- (parse_join_relative p k Hp Hk). exact Hnormal.
Qed.

(** X12.  Under a relative root prefix [p], when every listed candidate is
    an address [p/k] in normal form with a relative [k], every key that
    [find] yields resolves, by [_keyname], to a candidate of the listing. *)
Theorem find_keys_resolve {B : Type} (client : StorageClient B)
    (self : GcsPipelineStorage) (b : B) (file_pattern : Re.regex)
    (base_dir : option string) (progress : bool)
    (file_filter : option file_filter_t) (max_count : Z)
    (listing : list string) :
  list_blobs client b (_bucket_name self) (PyStr.or_else base_dir "")
  = Return listing ->
  relative_name (_path_prefix self) ->
  (forall blob, In blob listing ->
     normal_path blob
     /\ exists k, PyStr.startswith k "/" = false
                  /\ blob = _path_prefix self ^^ "/" ^^ k) ->
  forall key group,
    In (key, group)
       (yielded (fst (find client self b file_pattern base_dir progress
                           file_filter max_count))) ->
    In (_keyname (_path_prefix self) key) listing
    /\ blobname (_path_prefix self) (_keyname (_path_prefix self) key) = key.
Proof.
  intros Hlist Hp Hall key group Hin.
  destruct (find_listed client self b file_pattern base_dir progress file_filter
              max_count listing Hlist) as (Hy & _ & _).
  rewrite Hy in Hin.
  destruct (loop_yield_sound _ _ _ _ _ _ _ _ _ _ _ _ Hin) as (blob & Hb & Hk & _).
  destruct (Hall blob Hb) as (Hnormal & k & Hrel & Hblob).
  rewrite Hblob in Hnormal.
  destruct (resolve_unresolve _ k Hp Hrel Hnormal) as [Hun Hre].
  rewrite Hblob, Hun in Hk. subst key.
  rewrite Hre. split; [now rewrite <- Hblob | exact Hun].
Qed.

Lemma find_keys_resolve_witness :
  list_blobs Mem.client out_bucket (_bucket_name out_storage) (PyStr.or_else None "")
  = Return out_listing
  /\ relative_name (_path_prefix out_storage)
  /\ In ("2022.json", [("year", Some "2022")])
        (yielded (fst (find Mem.client out_storage out_bucket
                            (Re.Cat (Re.lit "out/") year_json) None false None (-1))))
  /\ In (_keyname (_path_prefix out_storage) "2022.json") out_listing.
Proof.
  assert (Hp : relative_name (_path_prefix out_storage))
    by (split; [discriminate | reflexivity]).
  assert (Hall : forall blob, In blob out_listing ->
            normal_path blob
            /\ exists k, PyStr.startswith k "/" = false
                         /\ blob = _path_prefix out_storage ^^ "/" ^^ k).
  { intros blob [<-|[<-|[<-|[]]]].
    - split; [split; [discriminate | reflexivity]|]. now exists "2021.json".
    - split; [split; [discriminate | reflexivity]|]. now exists "2022.json".
    - split; [split; [discriminate | reflexivity]|]. now exists "notes.txt". }
  assert (Hin : In ("2022.json", [("year", Some "2022")])
                   (yielded (fst (find Mem.client out_storage out_bucket
                                       (Re.Cat (Re.lit "out/") year_json) None
                                       false None (-1)))))
    by (right; left; reflexivity).
  split; [reflexivity|]. split; [exact Hp|]. split; [exact Hin|].
  exact (proj1 (find_keys_resolve Mem.client out_storage out_bucket
                  (Re.Cat (Re.lit "out/") year_json) None false None (-1)
                  out_listing eq_refl Hp Hall "2022.json"
                  [("year", Some "2022")] Hin)).
Defined.

(** ** After [clear] *)

(** Under a prefix that is empty or in normal form, the address of a
    relative key starts with the prefix. *)
Lemma keyname_under_prefix (p k : string) :
  p = "" \/ normal_path p -> PyStr.startswith k "/" = false ->
  PyStr.startswith (_keyname p k) p = true.
Proof.
  intros [-> | [Hdot Hp]] Hrel; [reflexivity|].
  destruct (normal_form p Hdot Hp) as [Ep Hne].
  rewrite (keyname_relative p k Hrel).
  assert (Hnonempty : forall x, p ^^ x <> "")
    by (intros x; destruct p; [congruence | discriminate]).
  destruct (PurePosixPath.parts (PurePosixPath.parse k)) as [|y pk] eqn:Ek.
  - rewrite app_nil_r. rewrite (to_str_nonempty _ (p ^^ "")).
    + apply startswith_append.
    + cbn [PurePosixPath.root PurePosixPath.parts]. now rewrite append_empty_r.
    + apply Hnonempty.
  - destruct (PurePosixPath.parts (PurePosixPath.parse p)) as [|x pp] eqn:Epp.
    + rewrite (to_str_nonempty _ (p ^^ PyStr.join "/" (y :: pk))).
      * apply startswith_append.
      * cbn [PurePosixPath.root PurePosixPath.parts app].
        simpl in Ep. rewrite append_empty_r in Ep. now rewrite <- Ep.
      * apply Hnonempty.
    + rewrite (to_str_nonempty _ (p ^^ "/" ^^ PyStr.join "/" (y :: pk))).
      * apply startswith_append.
      * cbn [PurePosixPath.root PurePosixPath.parts].
        rewrite join_app by discriminate.
        rewrite <- append_assoc. now rewrite <- Ep.
      * apply Hnonempty.
Qed.

Lemma nodup_filter_names (keep : string * Codecs.bytes -> bool)
    (objs : list (string * Codecs.bytes)) :
  NoDup (map fst objs) -> NoDup (map fst (filter keep objs)).
Proof.
  induction objs as [|o objs IH]; simpl; intros H; [constructor|].
  inversion H as [|? ? Hnotin Hrest]; subst.
  destruct (keep o); simpl; [|now apply IH].
  constructor; [|now apply IH].
  rewrite in_map_iff. intros [o' [Ho Hin]]. apply filter_In in Hin as [Hin _].
  apply Hnotin. rewrite in_map_iff. eauto.
Qed.

Lemma filter_twice {A : Type} (keep : A -> bool) (l : list A) :
  filter keep (filter keep l) = filter keep l.
Proof.
  induction l as [|a l IH]; [reflexivity|]. simpl.
  destruct (keep a) eqn:E; simpl; [rewrite E; now f_equal | exact IH].
Qed.

(** X13.  On a bucket that serves the storage, after [clear] no address
    that starts with the root prefix exists: [has] is false for every key
    that resolves to one, in particular for every relative key when the
    prefix is empty or in normal form; and a second [clear] changes
    nothing. *)
Theorem clear_then_has (self : GcsPipelineStorage) (m : Mem.t) :
  serves m self -> NoDup (Mem.names m) ->
  let m' := snd (clear Mem.client self m) in
  clear Mem.client self m' = (Return tt, m')
  /\ (forall key,
        PyStr.startswith (_keyname (_path_prefix self) key) (_path_prefix self)
        = true ->
        has Mem.client self m' key = Return false)
  /\ (_path_prefix self = "" \/ normal_path (_path_prefix self) ->
      forall key, PyStr.startswith key "/" = false ->
                  has Mem.client self m' key = Return false).
Proof.
  intros Hs Hnodup m'.
  destruct Hs as (Hup & Hmade & Hbucket).
  pose proof (clear_mem self m Hup Hmade Hbucket Hnodup) as Hclear.
  subst m'. rewrite Hclear. cbn [snd].
  set (keep := fun o : string * Codecs.bytes =>
                 negb (PyStr.startswith (fst o) (_path_prefix self))).
  set (m' := Mem.with_objects m (filter keep (Mem.objects m))).
  assert (Hs' : serves m' self) by (repeat split; assumption).
  assert (Hhas : forall key,
            PyStr.startswith (_keyname (_path_prefix self) key) (_path_prefix self)
            = true ->
            has Mem.client self m' key = Return false).
  { intros key Hunder. unfold has. cbn [blob_exists Mem.client].
    rewrite (reach_serves m' self _ Hs'). rewrite has_name_lookup.
    unfold m', keep. cbn [Mem.objects Mem.with_objects].
    rewrite (lookup_filter (fun n => negb (PyStr.startswith n (_path_prefix self)))).
    now rewrite Hunder. }
  split; [|split; [exact Hhas|]].
  - rewrite (clear_mem self m' Hup Hmade Hbucket).
    + unfold m'. cbn [Mem.objects Mem.with_objects].
      fold keep. now rewrite filter_twice.
    + unfold m', Mem.names. cbn [Mem.objects Mem.with_objects].
      now apply nodup_filter_names.
  - intros Hp key Hrel. apply Hhas. now apply keyname_under_prefix.
Qed.

Lemma clear_then_has_witness :
  let m := Mem.of_objects "bkt" [("out/a", []); ("tmp/b", [x01]); ("out/c", [])] in
  serves m out_storage /\ NoDup (Mem.names m)
  /\ normal_path (_path_prefix out_storage)
  /\ PyStr.startswith "a" "/" = false
  /\ has Mem.client out_storage m "a" = Return true
  /\ has Mem.client out_storage (snd (clear Mem.client out_storage m)) "a"
     = Return false.
Proof.
  intros m.
  assert (Hs : serves m out_storage) by (repeat split).
  assert (Hnodup : NoDup (Mem.names m)).
  { repeat constructor; simpl; intuition discriminate. }
  assert (Hp : normal_path (_path_prefix out_storage))
    by (split; [discriminate | reflexivity]).
  split; [exact Hs|]. split; [exact Hnodup|]. split; [exact Hp|].
  split; [reflexivity|]. split; [reflexivity|].
  exact (proj2 (proj2 (clear_then_has out_storage m Hs Hnodup))
           (or_intror Hp) "a" eq_refl).
Defined.

(** ** Construction and the container *)

(** X15.  [create_container] on a bucket that already exists and
    [delete_container] on one that does not exist ask the backend nothing
    more and return its state as it is, whatever the client; on the
    in-memory bucket that serves the storage, [delete_container] leaves no
    container, so that [find] raises [NotFound], and [create_container]
    then brings back a container that serves the storage and is empty. *)
Theorem container_lifecycle {B : Type} (client : StorageClient B)
    (self : GcsPipelineStorage) (b : B) (m : Mem.t) :
  (lookup_bucket client b (_bucket_name self) = Return true ->
   create_container client self b = Return b)
  /\ (lookup_bucket client b (_bucket_name self) = Return false ->
      delete_container client self b = Return b)
  /\ (serves m self ->
      exists gone back,
        delete_container Mem.client self m = Return gone
        /\ container_exists Mem.client self gone = Return false
        /\ (forall pat base_dir progress ff max_count,
              snd (find Mem.client self gone pat base_dir progress ff max_count)
              = Raise (NotFound (_bucket_name self)))
        /\ create_container Mem.client self gone = Return back
        /\ serves back self
        /\ Mem.objects back = []).
Proof.
  split; [|split].
  - intros H. unfold create_container, container_exists. now rewrite H.
  - intros H. unfold delete_container, container_exists. now rewrite H.
  - intros (Hup & Hmade & Hbucket).
    unfold delete_container, create_container, container_exists.
    cbn [lookup_bucket delete_bucket create_bucket Mem.client].
    unfold Mem.reach. rewrite Hup, Hmade, Hbucket, String.eqb_refl.
    cbn [negb andb orb bind].
    eexists. eexists. split; [reflexivity|].
    cbn [Mem.online Mem.bucket Mem.created Mem.objects].
    rewrite String.eqb_refl. cbn [negb andb bind].
    split; [reflexivity|]. split; [|repeat split; assumption].
    intros pat base_dir progress ff max_count.
    unfold find. cbn [list_blobs Mem.client]. unfold Mem.reach.
    cbn [Mem.online Mem.bucket Mem.created]. rewrite Hbucket, String.eqb_refl.
    reflexivity.
Qed.

Lemma container_lifecycle_witness :
  let m := Mem.of_objects "bkt" [("out/a", [])] in
  lookup_bucket Mem.client m (_bucket_name out_storage) = Return true
  /\ serves m out_storage
  /\ create_container Mem.client out_storage m = Return m
  /\ exists gone,
       delete_container Mem.client out_storage m = Return gone
       /\ container_exists Mem.client out_storage gone = Return false.
Proof.
  intros m.
  assert (Hs : serves m out_storage) by (repeat split).
  destruct (container_lifecycle Mem.client out_storage m m) as (Hc & _ & Hd).
  split; [reflexivity|]. split; [exact Hs|]. split; [exact (Hc eq_refl)|].
  destruct (Hd Hs) as (gone & back & Hdel & Hex & _).
  exists gone. split; assumption.
Defined.

(** ** Writing through a child, reading through the parent *)

(** X16.  On a bucket that serves a storage with a connection string, a
    child under a relative name is created without touching the bucket, and
    bytes that the child writes under a relative key are read back by the
    parent under the key [name/key]. *)
Theorem child_set_parent_get (self : GcsPipelineStorage) (m : Mem.t)
    (name key : string) (data : Codecs.bytes) :
  serves m self -> _connection_string self <> "" ->
  relative_name name -> PyStr.startswith key "/" = false ->
  exists sub m' log,
    child Mem.client self (Some name) m = (Return (sub, m), log)
    /\ set Mem.client sub m key (Bytes data) None = (Return tt, m', [])
    /\ get Mem.client self m' (name ^^ "/" ^^ key) true None
       = (Return (Some (Bytes data)), [])
    /\ has Mem.client self m' (name ^^ "/" ^^ key) = Return true.
Proof.
  intros Hs Hconn Hname Hkey.
  pose proof Hs as (Hup & Hmade & Hbucket).
  apply String.eqb_neq in Hconn.
  assert (Hpath : String.eqb (_keyname (_path_prefix self) name) "" = false)
    by (apply String.eqb_neq, keyname_is_normal).
  set (sub := {| _connection_string := _connection_string self;
                 _bucket_name := _bucket_name self;
                 _path_prefix := _keyname (_path_prefix self) name;
                 _encoding := PyStr.or_else (Some (_encoding self)) "utf-8" |}).
  set (address := _keyname (_path_prefix self) (name ^^ "/" ^^ key)).
  set (m' := Mem.with_objects m (Mem.put address data (Mem.objects m))).
  assert (Hsub : serves m sub) by exact Hs.
  assert (Hs' : serves m' self) by exact Hs.
  assert (Haddr : _keyname (_path_prefix sub) key = address)
    by (apply keyname_nested; assumption).
  exists sub, m', [InfoCreating (_bucket_name self) (_keyname (_path_prefix self) name)].
  split; [|split; [|split]].
  - unfold child, __init__. cbn [PyStr.or_else]. rewrite Hconn, Hpath, Hconn.
    unfold create_container, container_exists.
    cbn [from_service_account_json lookup_bucket Mem.client _bucket_name bind].
    rewrite Hup, <- Hbucket, String.eqb_refl, Hmade. reflexivity.
  - unfold set. rewrite Haddr. cbn [upload_from_string Mem.client].
    now rewrite (reach_serves m sub _ Hsub).
  - unfold get. fold address. cbn [download_as_bytes Mem.client].
    rewrite (reach_serves m' self _ Hs'). unfold m'.
    cbn [Mem.objects Mem.with_objects]. now rewrite lookup_put_same.
  - unfold has. fold address. cbn [blob_exists Mem.client].
    rewrite (reach_serves m' self _ Hs'). unfold m'.
    cbn [Mem.objects Mem.with_objects].
    now rewrite has_name_lookup, lookup_put_same.
Qed.

Lemma child_set_parent_get_witness :
  let m := Mem.of_objects "bkt" [] in
  serves m out_storage /\ _connection_string out_storage <> ""
  /\ relative_name "sub" /\ PyStr.startswith "a" "/" = false
  /\ exists sub m' log,
       child Mem.client out_storage (Some "sub") m = (Return (sub, m), log)
       /\ set Mem.client sub m "a" (Bytes [x78]) None = (Return tt, m', [])
       /\ get Mem.client out_storage m' "sub/a" true None
          = (Return (Some (Bytes [x78])), []).
Proof.
  intros m.
  assert (Hs : serves m out_storage) by (repeat split).
  assert (Hname : relative_name "sub") by (split; [discriminate | reflexivity]).
  split; [exact Hs|]. split; [discriminate|]. split; [exact Hname|].
  split; [reflexivity|].
  destruct (child_set_parent_get out_storage m "sub" "a" [x78] Hs
              ltac:(discriminate) Hname eq_refl)
    as (sub & m' & log & Hchild & Hset & Hget & _).
  exists sub, m', log. repeat split; assumption.
Defined.
